(** * Remoji core: the namespaced logger and the environment accessor

    A shallow embedding of the [Logger] class (both revisions kept in
    the repository: the 2022 one, which tags every line with its
    namespace and takes hex colours, and the 2021 one, which does not
    and takes HSL triples) and of [src/functions/getenv.ts].

    The Node process is an explicit [World]: the console, the file
    system, the clock, [process.env], the static fields of [Logger], the
    object heap and the 7-zip child processes.  Code that touches it
    lives in a state-and-exception monad [M]; what happens to the
    process over time is a list of [Event]s.

    The file system comes twice.  In [World] it is a well-behaved disk:
    flat directories of regular files, on which no call is refused;
    whole runs of the process are studied there.  What [log] and the
    ["end"] listener do when the operating system refuses a call, or
    lists something that is not a regular file, is studied on [log_sys]
    and [on_archive_end_sys], the same code over an arbitrary [Os]. *)

From Stdlib Require Import ZArith NArith Ascii Decimal DecimalString DecimalN.
From Stdlib Require Import Sorting.Sorted.
From stdpp Require Import base option list gmap strings sorting.

Local Open Scope Z_scope.

(** ** Strings *)

Definition LF : string := String (ascii_of_nat 10) "".

(** [("" + n)] for a non-negative integer. *)
Definition dec (n : N) : string := NilZero.string_of_uint (N.to_uint n).

Fixpoint zeros (k : nat) : string :=
  match k with
  | O => ""
  | S j => String "0" (zeros j)
  end.

(** [String.prototype.padStart(n, "0")]. *)
Definition padStart0 (s : string) (n : nat) : string :=
  zeros (n - String.length s) +:+ s.

(** [Array.prototype.join(sep)] on strings. *)
Definition join (sep : string) (l : list string) : string := String.concat sep l.

(** [String.prototype.endsWith]. *)
Definition endsWith (s suffix : string) : bool :=
  let n := String.length s in
  let k := String.length suffix in
  if decide (k ≤ n)%nat
  then bool_decide (String.substring (n - k) k s = suffix)
  else false.


(** ** luxon: a [DateTime] in the UTC zone

    luxon keeps the calendar components of an instant in the object
    ([this.c]); the two renderings used by the logger read them from
    there. *)

Record DateTime := {
  year : Z; month : Z; day : Z;
  hour : Z; minute : Z; second : Z; millisecond : Z
}.



(** luxon's [padStart(input, n = 2)]. *)
Definition padStart (input : Z) (n : nat) : string :=
  if decide (input < 0)
  then "-" +:+ padStart0 (dec (Z.to_N (- input))) n
  else padStart0 (dec (Z.to_N input)) n.

(** luxon's [toISODate(o, extended = true)] (luxon 2: signed six-digit
    years outside 0..9999). *)
Definition toISODate (t : DateTime) : string :=
  let longFormat := bool_decide (year t > 9999 ∨ year t < 0) in
  (if longFormat && bool_decide (0 ≤ year t) then "+" else "")
  +:+ padStart (year t) (if longFormat then 6 else 4)
  +:+ "-" +:+ padStart (month t) 2 +:+ "-" +:+ padStart (day t) 2.

(** luxon's [toISOTime] with its defaults, in the UTC zone (offset [Z]). *)
Definition toISOTime (t : DateTime) : string :=
  padStart (hour t) 2 +:+ ":" +:+ padStart (minute t) 2 +:+ ":"
  +:+ padStart (second t) 2 +:+ "." +:+ padStart (millisecond t) 3 +:+ "Z".

(** luxon's [DateTime#toISO()]. *)
Definition toISO (t : DateTime) : string :=
  toISODate t +:+ "T" +:+ toISOTime t.

(** ** JavaScript values, paths, chalk *)

(** A value of TypeScript type [unknown]: the code only ever asks whether
    it is a string. *)
Inductive unknown (V : Type) : Type :=
| JString (s : string)
| JOther (v : V).
Arguments JString {V} s.
Arguments JOther {V} v.

(** [path.join(folder, entry)], kept as its two components.  The
    components are not normalised: two spellings of one directory are
    two folders here. *)
Record Path := path_join { folder : string; entry : string }.

#[global] Instance Path_eq_dec : EqDecision Path.
Proof. solve_decision. Defined.

(** The path as the string handed to the operating system. *)
Definition path_text (p : Path) : string := folder p +:+ "/" +:+ entry p.

Inductive LogLevel := VERBOSE | INFO | WARNING | ERROR.

#[global] Instance LogLevel_eq_dec : EqDecision LogLevel.
Proof. solve_decision. Defined.

(** A chalk instance is determined by the colour it was built from. *)
Inductive Chalk :=
| chalk_hex (code : string)
| chalk_hsl (h s l : Z).

#[global] Instance Chalk_eq_dec : EqDecision Chalk.
Proof. solve_decision. Defined.

(** The two revisions of [logger.ts] in the repository. *)
Inductive Revision := Rev2022 | Rev2021.

(** ** The host: Node built-ins and npm packages the code calls

    They are pure functions of their arguments, left abstract. *)
Class Host := {
  jsval : Type;                                  (* non-string values *)
  inspect : jsval → string;                      (* util.inspect *)
  format : string → list (unknown jsval) → string;   (* util.format *)
  number : Type;                                 (* IEEE doubles *)
  parseFloat : string → number;                  (* Number.parseFloat *)
  isNaN : number → bool;                         (* Number.isNaN *)
  paint : Chalk → string → string;               (* calling a chalk instance *)
  stripAnsi : string → string;                   (* removing colour codes *)
  utf16 : string → list N;                       (* the UTF-16 code units of a string *)
  appRoot_path : string;                         (* appRoot.path *)
  path7za : string;                              (* szBin.path7za *)
  sevenZip : option string → list (Path * string) → string
                                                 (* the archive 7za writes *)
}.

(** ** Errors *)

Inductive Exn :=
| TypeError (message : string)
| ENOENT (p : Path)
| MODULE_NOT_FOUND
| SystemError (code : string).   (* any other error of the operating system:
                                    EEXIST, ENOTDIR, EISDIR, EACCES, ENOSPC, ... *)

Inductive Outcome (A : Type) : Type :=
| Return (a : A)
| Throw (e : Exn).
Arguments Return {A} a.
Arguments Throw {A} e.

(** ** Logger objects *)

Record LoggerOptions := {
  opt_colors : option (LogLevel → string);              (* 2022: colors *)
  opt_colorsHSL : option (LogLevel → Z * Z * Z);        (* 2021: colorsHSL *)
  opt_logDir : option string
}.

Record Logger := {
  namespace : string;
  colors : LogLevel → Chalk;
  dir : string
}.

(** The closure passed to [stream.on("end", ...)]: it captures [this]
    and [needArchive]. *)
Record EndListener := { this : Logger; needArchive : list string }.

Inductive StreamStatus := Running | Ended | Failed.

#[global] Instance StreamStatus_eq_dec : EqDecision StreamStatus.
Proof. solve_decision. Defined.

Record SzOptions := { bin : string; archiveType : string; method : list string }.

(** A 7-zip child process started by [sz.update] and its event emitter.
    The code registers listeners for ["end"] only. *)
Record Stream := {
  archive : Path;
  inputs : list Path;
  options : SzOptions;
  on_end : list EndListener;
  status : StreamStatus
}.

(** What [appRoot.require("./package.json")] does: it throws, or gives a
    manifest whose [name] is a string or is missing.  A manifest whose
    [name] is another JSON value (a number, an object) is not covered. *)
Inductive Manifest :=
| RequireThrows
| PackageJson (name : option string).

(** ** The process *)

Record World := {
  env : gmap string string;                 (* process.env *)
  stdout : list string;                     (* chunks written, oldest first *)
  fs : gmap string (gmap string string);    (* directory ↦ entry ↦ content *)
  clock : nat → DateTime;                   (* successive clock readings *)
  ticks : nat;                              (* readings taken so far *)
  manifest : Manifest;
  isArchiving : bool;                       (* Logger.isArchiving *)
  heap : list Logger;                       (* Logger objects, by reference *)
  loggers : gmap string nat;                (* Logger.loggers *)
  streams : list Stream
}.

Definition set_env (f : gmap string string → gmap string string) (w : World) : World :=
  {| env := f (env w); stdout := stdout w; fs := fs w; clock := clock w;
     ticks := ticks w; manifest := manifest w; isArchiving := isArchiving w;
     heap := heap w; loggers := loggers w; streams := streams w |}.

Definition set_stdout (f : list string → list string) (w : World) : World :=
  {| env := env w; stdout := f (stdout w); fs := fs w; clock := clock w;
     ticks := ticks w; manifest := manifest w; isArchiving := isArchiving w;
     heap := heap w; loggers := loggers w; streams := streams w |}.

Definition set_fs (f : gmap string (gmap string string) → gmap string (gmap string string))
    (w : World) : World :=
  {| env := env w; stdout := stdout w; fs := f (fs w); clock := clock w;
     ticks := ticks w; manifest := manifest w; isArchiving := isArchiving w;
     heap := heap w; loggers := loggers w; streams := streams w |}.

Definition set_ticks (f : nat → nat) (w : World) : World :=
  {| env := env w; stdout := stdout w; fs := fs w; clock := clock w;
     ticks := f (ticks w); manifest := manifest w; isArchiving := isArchiving w;
     heap := heap w; loggers := loggers w; streams := streams w |}.

Definition set_isArchiving (b : bool) (w : World) : World :=
  {| env := env w; stdout := stdout w; fs := fs w; clock := clock w;
     ticks := ticks w; manifest := manifest w; isArchiving := b;
     heap := heap w; loggers := loggers w; streams := streams w |}.

Definition set_registry (h : list Logger) (m : gmap string nat) (w : World) : World :=
  {| env := env w; stdout := stdout w; fs := fs w; clock := clock w;
     ticks := ticks w; manifest := manifest w; isArchiving := isArchiving w;
     heap := h; loggers := m; streams := streams w |}.

Definition set_streams (f : list Stream → list Stream) (w : World) : World :=
  {| env := env w; stdout := stdout w; fs := fs w; clock := clock w;
     ticks := ticks w; manifest := manifest w; isArchiving := isArchiving w;
     heap := heap w; loggers := loggers w; streams := f (streams w) |}.

(** A freshly started process. *)
Definition boot (e : gmap string string) (f : gmap string (gmap string string))
    (c : nat → DateTime) (m : Manifest) : World :=
  {| env := e; stdout := []; fs := f; clock := c; ticks := 0%nat; manifest := m;
     isArchiving := false; heap := []; loggers := ∅; streams := [] |}.

(** ** The monad of code running in the process *)

Definition M (A : Type) : Type := World → Outcome A * World.

Definition ret {A} (a : A) : M A := fun w => (Return a, w).

Definition bind {A B} (m : M A) (k : A → M B) : M B := fun w =>
  match m w with
  | (Return a, w') => k a w'
  | (Throw e, w') => (Throw e, w')
  end.

Notation "'let!' x ':=' m 'in' k" := (bind m (fun x => k))
  (at level 10, x name, m at level 100, k at level 200).
Notation "m >> k" := (bind m (fun _ => k))
  (at level 100, k at level 200, right associativity).

(** [try { m } catch { h }]. *)
Definition try_catch {A} (m h : M A) : M A := fun w =>
  match m w with
  | (Return a, w') => (Return a, w')
  | (Throw _, w') => h w'
  end.

(** [for (const x of l) body(x)]. *)
Fixpoint for_of {A} (l : list A) (body : A → M unit) : M unit :=
  match l with
  | [] => ret tt
  | x :: l' => body x >> for_of l' body
  end.

(** The state a computation leaves behind. *)
Definition exec {A} (m : M A) (w : World) : World := snd (m w).

(** ** Node primitives over the world *)

(** [process.stdout.write(chunk)]. *)
Definition stdout_write (chunk : string) : M unit := fun w =>
  (Return tt, set_stdout (fun out => out ++ [chunk]) w).

(** [DateTime.now().toUTC()]: one reading of the clock. *)
Definition DateTime_now_toUTC : M DateTime := fun w =>
  (Return (clock w (ticks w)), set_ticks S w).

(** [fs.mkdirSync(d, { recursive: true })] on the well-behaved disk: the
    directory is there afterwards. *)
Definition mkdirSync_recursive (d : string) : M unit := fun w =>
  (Return tt,
   set_fs (fun f => match f !! d with Some _ => f | None => <[d := ∅]> f end) w).

(** [fs.appendFileSync(p, data)] on the well-behaved disk: refused only
    when the directory is missing. *)
Definition appendFileSync (p : Path) (data : string) : M unit := fun w =>
  match fs w !! folder p with
  | None => (Throw (ENOENT p), w)
  | Some es =>
      (Return tt,
       set_fs (fun f =>
         <[folder p := <[entry p := default "" (es !! entry p) +:+ data]> es]> f) w)
  end.

(** [fs.readdirSync(d)] on the well-behaved disk, in the order the
    operating system gives: every entry is a regular file. *)
Definition readdirSync (d : string) : M (list string) := fun w =>
  match fs w !! d with
  | None => (Throw (ENOENT (path_join d "")), w)
  | Some es => (Return (map fst (map_to_list es)), w)
  end.

(** [fs.rmSync(p)] on the well-behaved disk: refused only when the file
    is missing. *)
Definition rmSync (p : Path) : M unit := fun w =>
  match fs w !! folder p with
  | None => (Throw (ENOENT p), w)
  | Some es =>
      match es !! entry p with
      | None => (Throw (ENOENT p), w)
      | Some _ => (Return tt, set_fs (fun f => <[folder p := delete (entry p) es]> f) w)
      end
  end.

(** The order of [Array.prototype.sort()] without a comparator, and of
    [<] on strings: the sequences of UTF-16 code units, compared
    lexicographically. *)
Fixpoint units_leb (a b : list N) : bool :=
  match a, b with
  | [], _ => true
  | _ :: _, [] => false
  | x :: a', y :: b' =>
      match (x ?= y)%N with
      | Lt => true
      | Gt => false
      | Eq => units_leb a' b'
      end
  end.

Definition js_le `{Host} (s t : string) : Prop := units_leb (utf16 s) (utf16 t) = true.

#[global] Instance js_le_dec `{Host} : RelDecision js_le.
Proof. intros s t. unfold js_le. apply _. Defined.

(** [Array.prototype.sort()] on strings. *)
Definition sort `{Host} (l : list string) : list string := merge_sort js_le l.

(** [sz.update(archive, inputs, options)]: starts the child process and
    returns its stream. *)
Definition sz_update (a : Path) (ins : list Path) (o : SzOptions) : M nat := fun w =>
  (Return (length (streams w)),
   set_streams (fun ss => ss ++ [{| archive := a; inputs := ins; options := o;
                                    on_end := []; status := Running |}]) w).

(** [stream.on("end", listener)]. *)
Definition stream_on_end (i : nat) (l : EndListener) : M unit := fun w =>
  (Return tt,
   set_streams (alter (fun s =>
     {| archive := archive s; inputs := inputs s; options := options s;
        on_end := on_end s ++ [l]; status := status s |}) i) w).

(** Reading and assigning the static field [Logger.isArchiving]. *)
Definition read_isArchiving : M bool := fun w => (Return (isArchiving w), w).

Definition write_isArchiving (b : bool) : M unit := fun w =>
  (Return tt, set_isArchiving b w).

(** [appRoot.require("./package.json").name]. *)
Definition appRoot_require_name : M (option string) := fun w =>
  match manifest w with
  | RequireThrows => (Throw MODULE_NOT_FOUND, w)
  | PackageJson n => (Return n, w)
  end.

(** [a || b] for [a : string | undefined]. *)
Definition js_or (a : option string) (b : string) : string :=
  match a with
  | Some s => if decide (s = "") then b else s
  | None => b
  end.

Definition ERROR_TYPES (level : LogLevel) : string :=
  match level with
  | VERBOSE => "D"
  | INFO => "I"
  | WARNING => "W"
  | ERROR => "E"
  end.

Definition DEFAULT_COLORS (rev : Revision) (level : LogLevel) : Chalk :=
  match rev, level with
  | Rev2022, VERBOSE => chalk_hex "#AAAAAA"
  | Rev2022, INFO => chalk_hex "#00AAAA"
  | Rev2022, WARNING => chalk_hex "#FFFF55"
  | Rev2022, ERROR => chalk_hex "#FF5555"
  | Rev2021, VERBOSE => chalk_hsl 280 45 60
  | Rev2021, INFO => chalk_hsl 0 0 60
  | Rev2021, WARNING => chalk_hsl 60 45 60
  | Rev2021, ERROR => chalk_hsl 0 45 60
  end.

Definition isRunning (s : Stream) : bool := bool_decide (status s = Running).

(** The text has no occurrence of the character. *)
Fixpoint lacks (a : ascii) (s : string) : bool :=
  match s with
  | EmptyString => true
  | String b r => negb (bool_decide (b = a)) && lacks a r
  end.

Definition NUL : ascii := ascii_of_nat 0.

(** A text as the C library reads it: up to its first NUL. *)
Fixpoint c_string (s : string) : string :=
  match s with
  | EmptyString => EmptyString
  | String a r => if decide (a = NUL) then EmptyString else String a (c_string r)
  end.

(** [process.env[name] = value]: Node hands both texts to [setenv] as C
    strings; [setenv] refuses an empty name and a name with an [=], and
    Node drops the refusal, so such an assignment does nothing. *)
Definition process_env_set (name value : string) : M unit := fun w =>
  let key := c_string name in
  if bool_decide (key ≠ "") && lacks "=" key
  then (Return tt, set_env (<[key := c_string value]>) w)
  else (Return tt, w).

Definition running (ss : list Stream) : list Stream :=
  filter (fun s => isRunning s = true) ss.

(** The compactions in progress. *)
Definition inProgress (w : World) : list Stream := running (streams w).

Section Process.
Context `{Host}.
Variable rev : Revision.

(** *** getenv.ts *)

Inductive EnvValue :=
| Null
| Str (s : string)
| Num (n : number).

Definition getenv (name : string) (number assert : bool) : M EnvValue :=
  fun w =>
  match env w !! name with
  | None =>
      if assert then (Throw (TypeError ("Missing environment variable: " +:+ name)), w)
      else (Return Null, w)
  | Some value =>
      if number then
        let parsed := parseFloat value in
        if isNaN parsed then
          if assert
          then (Throw (TypeError ("Missing environment variable: " +:+ name)), w)
          else (Return Null, w)
        else (Return (Num parsed), w)
      else (Return (Str value), w)
  end.

(** *** logger.ts *)

(** [new Logger(namespace, options)]. *)
Definition newLogger (ns : string) (o : option LoggerOptions) : Logger :=
  {| namespace := ns;
     colors :=
       match rev with
       | Rev2022 =>
           match o ≫= opt_colors with
           | Some cs => fun level => chalk_hex (cs level)
           | None => DEFAULT_COLORS rev
           end
       | Rev2021 =>
           match o ≫= opt_colorsHSL with
           | Some cs => fun level => let '(h, s, l) := cs level in chalk_hsl h s l
           | None => DEFAULT_COLORS rev
           end
       end;
     dir :=
       match o ≫= opt_logDir with
       | Some d => if decide (d = "") then path_text (path_join appRoot_path "logs") else d
       | None => path_text (path_join appRoot_path "logs")
       end |}.

Definition getLogger (ns : string) (creationOptions : option LoggerOptions) : M nat :=
  fun w =>
  match loggers w !! ns with
  | Some r => (Return r, w)
  | None =>
      let logger := length (heap w) in
      (Return logger,
       set_registry (heap w ++ [newLogger ns creationOptions])
                    (<[ns := logger]> (loggers w)) w)
  end.

Definition getDefault : M nat :=
  let! ns := try_catch appRoot_require_name (ret (Some "")) in
  getLogger (js_or ns "default") None.

(** [if (typeof content !== "string") content = util.inspect(content)]. *)
Definition normalize (content : unknown jsval) : string :=
  match content with
  | JString s => s
  | JOther v => inspect v
  end.

Definition message_of (this : Logger) (level : LogLevel) (timestamp text : string) : string :=
  match rev with
  | Rev2022 =>
      ERROR_TYPES level +:+ " " +:+ timestamp +:+ " [" +:+ namespace this +:+ "]: " +:+ text
  | Rev2021 =>
      ERROR_TYPES level +:+ " " +:+ timestamp +:+ ": " +:+ text
  end.

Definition archivable (filename : string) (logfiles : list string) : list string :=
  filter (fun file => endsWith file ".log" = true ∧ file ≠ filename) logfiles.

Definition sz_options : SzOptions :=
  {| bin := path7za; archiveType := "7z";
     method := ["0=lzma"; "x=9"; "fb=64"; "d=32m"; "s=on"] |}.

Definition log (this : Logger) (level : LogLevel) (content : unknown jsval)
    (fmt : list (unknown jsval)) : M unit :=
  let content := normalize content in
  let! now := DateTime_now_toUTC in
  let timestamp := toISO now in
  let color := DEFAULT_COLORS rev level in
  let message := message_of this level timestamp (format content fmt) in
  stdout_write (paint color (message +:+ LF)) >>
  let filename := toISODate now +:+ ".log" in
  mkdirSync_recursive (dir this) >>
  appendFileSync (path_join (dir this) filename) (message +:+ LF) >>
  let! entries := readdirSync (dir this) in
  let logfiles := sort entries in
  let needArchive := archivable filename logfiles in
  let! archiving := read_isArchiving in
  if negb archiving && negb (bool_decide (length needArchive = 0%nat)) then
    write_isArchiving true >>
    let! stream := sz_update (path_join (dir this) "archive.7z")
                     (map (path_join (dir this)) needArchive) sz_options in
    stream_on_end stream {| this := this; needArchive := needArchive |}
  else ret tt.

Definition verbose (this : Logger) (content : unknown jsval) (fmt : list (unknown jsval)) : M unit :=
  let content := JString (normalize content) in
  log this VERBOSE content fmt.

Definition info (this : Logger) (content : unknown jsval) (fmt : list (unknown jsval)) : M unit :=
  let content := JString (normalize content) in
  log this INFO content fmt.

Definition warn (this : Logger) (content : unknown jsval) (fmt : list (unknown jsval)) : M unit :=
  let content := JString (normalize content) in
  log this WARNING content fmt.

Definition error (this : Logger) (content : unknown jsval) (fmt : list (unknown jsval)) : M unit :=
  let content := JString (normalize content) in
  log this ERROR content fmt.

(** The body of the ["end"] listener registered by [log]. *)
Definition on_archive_end (l : EndListener) : M unit :=
  for_of (needArchive l) (fun file => rmSync (path_join (dir (this l)) file)) >>
  log (this l) INFO
    (JString ("[Logger] Archived " +:+ dec (N.of_nat (length (needArchive l)))
              +:+ " log file(s): " +:+ join ", " (needArchive l))) [] >>
  write_isArchiving false.

(** *** The event loop

    What can happen to the process: a call into the module from the
    application, or the exit of a 7-zip child process. *)

Definition set_status (st : StreamStatus) (s : Stream) : Stream :=
  {| archive := archive s; inputs := inputs s; options := options s;
     on_end := on_end s; status := st |}.

Definition read_file (f : gmap string (gmap string string)) (p : Path) : option string :=
  f !! folder p ≫= fun es => es !! entry p.

(** What a successful run of 7za leaves on disk: the archive, updated
    with the inputs that exist. *)
Definition sz_write (s : Stream) (f : gmap string (gmap string string))
    : gmap string (gmap string string) :=
  let members := omap (fun p => pair p <$> read_file f p) (inputs s) in
  let data := sevenZip (read_file f (archive s)) members in
  <[folder (archive s) := <[entry (archive s) := data]> (default ∅ (f !! folder (archive s)))]> f.

(** The child of stream [i] exits successfully: ["end"] is emitted. *)
Definition sz_end (i : nat) : M unit := fun w =>
  match streams w !! i with
  | Some s =>
      if isRunning s then
        for_of (on_end s) on_archive_end
          (set_fs (sz_write s) (set_streams (alter (set_status Ended) i) w))
      else (Return tt, w)
  | None => (Return tt, w)
  end.

(** The child of stream [i] fails: ["error"] is emitted, for which the
    code has no listener, so the emitter throws. *)
Definition sz_error (i : nat) : M unit := fun w =>
  match streams w !! i with
  | Some s =>
      if isRunning s then
        (Throw (TypeError "Unhandled error."),
         set_streams (alter (set_status Failed) i) w)
      else (Return tt, w)
  | None => (Return tt, w)
  end.

(** A method call on the Logger object at reference [r]. *)
Definition call (r : nat) (method : Logger → M unit) : M unit := fun w =>
  match heap w !! r with
  | Some this => method this w
  | None => (Throw (TypeError "Cannot read properties of undefined"), w)
  end.

Inductive Event :=
| CallGetLogger (ns : string) (creationOptions : option LoggerOptions)
| CallGetDefault
| CallLog (r : nat) (level : LogLevel) (content : unknown jsval) (fmt : list (unknown jsval))
| CallVerbose (r : nat) (content : unknown jsval) (fmt : list (unknown jsval))
| CallInfo (r : nat) (content : unknown jsval) (fmt : list (unknown jsval))
| CallWarn (r : nat) (content : unknown jsval) (fmt : list (unknown jsval))
| CallError (r : nat) (content : unknown jsval) (fmt : list (unknown jsval))
| CallGetenv (name : string) (number assert : bool)
| SetEnv (name value : string)
| SzEnd (i : nat)
| SzError (i : nat).

Definition handle (ev : Event) : M unit :=
  match ev with
  | CallGetLogger ns o => getLogger ns o >> ret tt
  | CallGetDefault => getDefault >> ret tt
  | CallLog r level content fmt => call r (fun this => log this level content fmt)
  | CallVerbose r content fmt => call r (fun this => verbose this content fmt)
  | CallInfo r content fmt => call r (fun this => info this content fmt)
  | CallWarn r content fmt => call r (fun this => warn this content fmt)
  | CallError r content fmt => call r (fun this => error this content fmt)
  | CallGetenv name number assert => getenv name number assert >> ret tt
  | SetEnv name value => process_env_set name value
  | SzEnd i => sz_end i
  | SzError i => sz_error i
  end.

(** An exception that reaches the event loop leaves the state as it is
    at the throw.  The loop goes on, as under an [uncaughtException]
    handler; a process that dies instead takes no further step, so what
    holds of every run holds of its runs too. *)
Definition step (w : World) (ev : Event) : World := exec (handle ev) w.

Definition run (evs : list Event) (w : World) : World := foldl step w evs.

End Process.

Arguments Null {_}.
Arguments Str {_} s.
Arguments Num {_} n.

(** ** A concrete host

    A small instance of [Host] on which the code can be run.  It is a
    stand-in for Node, not Node: the only non-string values are
    integers, [format] appends its arguments instead of substituting
    directives, numbers are parsed from integer literals only, the
    terminal supports colours and a chalk instance wraps the text once,
    and the code units of a text are its bytes.  The theorems hold for
    every [Host]; this one serves the concrete runs. *)

Definition ESC : ascii := ascii_of_nat 27.

Definition show_Z (z : Z) : string :=
  if decide (z < 0) then "-" +:+ dec (Z.to_N (- z)) else dec (Z.to_N z).

Fixpoint ascii_codes (s : string) : list N :=
  match s with
  | EmptyString => []
  | String a r => N_of_ascii a :: ascii_codes r
  end.

(** The parameters of the escape sequence that selects a colour. *)
Definition sgr (c : Chalk) : list N :=
  match c with
  | chalk_hex code => 38%N :: 2%N :: ascii_codes code
  | chalk_hsl h s l => [38%N; 5%N; Z.abs_N h; Z.abs_N s; Z.abs_N l]
  end.

Definition tty_paint (c : Chalk) (text : string) : string :=
  String ESC ("[" +:+ join ";" (dec <$> sgr c) +:+ "m")
  +:+ text +:+ String ESC "[39m".

(** Drops every escape sequence: from an escape character up to the
    letter that ends it.  [inside] tells whether a sequence is open. *)
Fixpoint strip_from (inside : bool) (s : string) : string :=
  match s with
  | EmptyString => EmptyString
  | String a r =>
      if inside then strip_from (negb (bool_decide (a = "m"%char))) r
      else if decide (a = ESC) then strip_from true r
      else String a (strip_from false r)
  end.

Definition tty_format (s : string) (args : list (unknown Z)) : string :=
  s +:+ String.concat ""
          ((fun a => " " +:+ match a with JString t => t | JOther z => show_Z z end) <$> args).

#[local] Instance nodeTTY : Host := {|
  jsval := Z;
  inspect := show_Z;
  format := tty_format;
  number := option Z;
  parseFloat := fun s => Z.of_int <$> NilZero.int_of_string s;
  isNaN := fun n => bool_decide (n = None);
  paint := tty_paint;
  stripAnsi := strip_from false;
  utf16 := ascii_codes;
  appRoot_path := "/srv/remoji";
  path7za := "/srv/remoji/node_modules/7zip-bin/linux/x64/7za";
  sevenZip := fun old members =>
    default "" old +:+ String.concat "" ((fun m => path_text m.1 +:+ LF) <$> members)
|}.

(** Sample instants and a sample process. *)
Definition noon (y m d : Z) : DateTime :=
  {| year := y; month := m; day := d; hour := 12; minute := 0; second := 0;
     millisecond := 0 |}.

Definition today : DateTime := noon 2022 3 7.

Definition logs : string := "/srv/remoji/logs".

Definition stale_fs : gmap string (gmap string string) :=
  {[ logs := {[ "2022-03-05.log" := "old"; "2022-03-06.log" := "older";
                "notes.txt" := "keep" ]} ]}.

Definition sample (f : gmap string (gmap string string)) : World :=
  boot ∅ f (fun _ => today) (PackageJson (Some "remoji")).

Definition bot : Logger := newLogger Rev2022 "bot" None.

Definition all_red : LoggerOptions :=
  {| opt_colors := Some (fun _ => "#FF0000"); opt_colorsHSL := None;
     opt_logDir := None |}.

(** A run in which the compression of two old files fails. *)
Definition failing_run : list Event :=
  [CallGetDefault; CallInfo 0%nat (JString "hello") [JString "world"]; SzError 0%nat].

(** ** Closed forms

    The state [log] leaves behind, written out: [written] after the
    console write and the append, [launched] when a compaction is
    started as well. *)

Section ClosedForms.
Context `{Host}.
Variable rev : Revision.
Variables (self : Logger) (level : LogLevel) (content : unknown jsval)
          (fmt : list (unknown jsval)) (w : World).

Definition instant : DateTime := clock w (ticks w).

Definition filename_of : string := toISODate instant +:+ ".log".

Definition line_of : string :=
  message_of rev self level (toISO instant) (format (normalize content) fmt) +:+ LF.

Definition entries_after : gmap string string :=
  let old := default ∅ (fs w !! dir self) in
  <[filename_of := default "" (old !! filename_of) +:+ line_of]> old.

Definition needArchive_of : list string :=
  archivable filename_of (sort (map fst (map_to_list entries_after))).

Definition written : World :=
  set_fs (fun f => <[dir self := entries_after]> f)
    (set_stdout (fun out => out ++ [paint (DEFAULT_COLORS rev level) line_of])
       (set_ticks S w)).

Definition stream_of : Stream :=
  {| archive := path_join (dir self) "archive.7z";
     inputs := map (path_join (dir self)) needArchive_of;
     options := sz_options;
     on_end := [{| this := self; needArchive := needArchive_of |}];
     status := Running |}.

Definition launched : World :=
  set_streams (fun ss => ss ++ [stream_of]) (set_isArchiving true written).

Definition launches : bool :=
  negb (isArchiving w) && negb (bool_decide (length needArchive_of = 0%nat)).

End ClosedForms.



(** The file a call of [log] has just appended to is an input of no
    compaction in progress. *)
Definition today_excluded `{Host} (rev : Revision) (self : Logger) (level : LogLevel)
    (content : unknown jsval) (fmt : list (unknown jsval)) (w : World) : Prop :=
  let w' := exec (log rev self level content fmt) w in
  let target := path_join (dir self) (toISODate (clock w (ticks w)) +:+ ".log") in
  ∀ s, s ∈ inProgress w' → target ∉ inputs s.

(** ** The code and the operating system

    On the disk of [World] every directory is a flat map of regular
    files and no call is refused.  A real operating system may refuse
    any call (a component of the path is a regular file, the entry to
    append to or to remove is a directory, permissions, a full disk),
    and a directory listing names subdirectories as well as files.

    Here the disk is outside the process: the code issues its calls, and
    the operating system's answer to each, a return or a throw, is
    given by an [Os].  Nothing is assumed about the answers.  The
    [trace] keeps the calls issued, each with its answer; the [fs] field
    of the world plays no part.  Paths are handed over as the code
    builds them, so nothing depends on how they are spelled. *)

Inductive FsCall :=
| fs_mkdirSync (d : string)                     (* fs.mkdirSync(d, { recursive: true }) *)
| fs_appendFileSync (p : Path) (data : string)  (* fs.appendFileSync(p, data) *)
| fs_readdirSync (d : string)                   (* fs.readdirSync(d) *)
| fs_rmSync (p : Path).                         (* fs.rmSync(p) *)

(** A call throws, or returns: for [readdirSync] the names listed; the
    other calls return nothing, and the list is ignored. *)
Definition Answer : Type := Exn + list string.

(** The answer to the call issued as number [k] since the trace began. *)
Definition Os : Type := nat → FsCall → Answer.

Record Machine := { world : World; trace : list (FsCall * Answer) }.

Definition Sys (A : Type) : Type := Machine → Outcome A * Machine.

Definition sys_ret {A} (a : A) : Sys A := fun m => (Return a, m).

Definition sys_bind {A B} (c : Sys A) (k : A → Sys B) : Sys B := fun m =>
  match c m with
  | (Return a, m') => k a m'
  | (Throw e, m') => (Throw e, m')
  end.

Notation "'let*' x ':=' c 'in' k" := (sys_bind c (fun x => k))
  (at level 10, x name, c at level 100, k at level 200).
Notation "c >>> k" := (sys_bind c (fun _ => k))
  (at level 100, k at level 200, right associativity).

(** Code that stays inside the process. *)
Definition inside {A} (c : M A) : Sys A := fun m =>
  ((c (world m)).1, {| world := (c (world m)).2; trace := trace m |}).

(** A call to the operating system. *)
Definition syscall (os : Os) (c : FsCall) : Sys (list string) := fun m =>
  let answer := os (length (trace m)) c in
  let m' := {| world := world m; trace := trace m ++ [(c, answer)] |} in
  match answer with
  | inl e => (Throw e, m')
  | inr names => (Return names, m')
  end.

Fixpoint sys_for_of {A} (l : list A) (body : A → Sys unit) : Sys unit :=
  match l with
  | [] => sys_ret tt
  | x :: l' => body x >>> sys_for_of l' body
  end.

Definition returns (a : Answer) : Prop := ∃ names, a = inr names.

(** The appends and the removals that were carried out. *)
Definition appended (tr : list (FsCall * Answer)) : list (Path * string) :=
  omap (fun ca => match ca with
                  | (fs_appendFileSync p data, inr _) => Some (p, data)
                  | _ => None
                  end) tr.

Definition removed (tr : list (FsCall * Answer)) : list Path :=
  omap (fun ca => match ca with
                  | (fs_rmSync p, inr _) => Some p
                  | _ => None
                  end) tr.

Section System.
Context `{Host}.
Variable rev : Revision.
Variable os : Os.

(** [log], statement for statement, over the operating system [os]. *)
Definition log_sys (this : Logger) (level : LogLevel) (content : unknown jsval)
    (fmt : list (unknown jsval)) : Sys unit :=
  let content := normalize content in
  let* now := inside DateTime_now_toUTC in
  let timestamp := toISO now in
  let color := DEFAULT_COLORS rev level in
  let message := message_of rev this level timestamp (format content fmt) in
  inside (stdout_write (paint color (message +:+ LF))) >>>
  let filename := toISODate now +:+ ".log" in
  syscall os (fs_mkdirSync (dir this)) >>>
  syscall os (fs_appendFileSync (path_join (dir this) filename) (message +:+ LF)) >>>
  let* entries := syscall os (fs_readdirSync (dir this)) in
  let logfiles := sort entries in
  let needArchive := archivable filename logfiles in
  let* archiving := inside read_isArchiving in
  if negb archiving && negb (bool_decide (length needArchive = 0%nat)) then
    inside (write_isArchiving true) >>>
    let* stream := inside (sz_update (path_join (dir this) "archive.7z")
                             (map (path_join (dir this)) needArchive) sz_options) in
    inside (stream_on_end stream {| this := this; needArchive := needArchive |})
  else sys_ret tt.

(** The body of the ["end"] listener, over [os]. *)
Definition on_archive_end_sys (l : EndListener) : Sys unit :=
  sys_for_of (needArchive l)
    (fun file => syscall os (fs_rmSync (path_join (dir (this l)) file)) >>> sys_ret tt) >>>
  log_sys (this l) INFO
    (JString ("[Logger] Archived " +:+ dec (N.of_nat (length (needArchive l)))
              +:+ " log file(s): " +:+ join ", " (needArchive l))) [] >>>
  inside (write_isArchiving false).

End System.

(** The state of the process after the console write of [log]. *)
Definition printed `{Host} (rev : Revision) (self : Logger) (level : LogLevel)
    (content : unknown jsval) (fmt : list (unknown jsval)) (w : World) : World :=
  set_stdout (fun out => out ++ [paint (DEFAULT_COLORS rev level)
                                   (line_of rev self level content fmt w)])
    (set_ticks S w).

(** The compaction [log] starts on the names [names]. *)
Definition compaction_of `{Host} (self : Logger) (names : list string) : Stream :=
  {| archive := path_join (dir self) "archive.7z";
     inputs := map (path_join (dir self)) names;
     options := sz_options;
     on_end := [{| this := self; needArchive := names |}];
     status := Running |}.

(** The flat disk of [w] as an operating system, for one call of [log]:
    nothing is refused, and the listing is that of the directory after
    the append. *)
Definition flat_disk `{Host} (rev : Revision) (self : Logger) (level : LogLevel)
    (content : unknown jsval) (fmt : list (unknown jsval)) (w : World) : Os :=
  fun _ c =>
  match c with
  | fs_readdirSync _ => inr (map fst (map_to_list (entries_after rev self level content fmt w)))
  | _ => inr []
  end.

(** Operating systems to run the code on: one that refuses nothing and
    lists [entries]; one that refuses to create the directory; one whose
    directory holds the regular file [2022-03-05.log] and a
    subdirectory named [b.log], which [rmSync] refuses to remove. *)
Definition obliging (entries : list string) : Os := fun _ c =>
  match c with
  | fs_readdirSync _ => inr entries
  | _ => inr []
  end.

Definition refusing (code : string) : Os := fun _ c =>
  match c with
  | fs_mkdirSync _ => inl (SystemError code)
  | _ => inr []
  end.

Definition with_subdirectory : Os := fun _ c =>
  match c with
  | fs_readdirSync _ => inr ["b.log"; "2022-03-07.log"; "2022-03-05.log"]
  | fs_rmSync p =>
      if decide (entry p = "b.log") then inl (SystemError "ERR_FS_EISDIR") else inr []
  | _ => inr []
  end.

Definition start (w : World) : Machine := {| world := w; trace := [] |}.

(** A directory that already holds a file named for the next day, and
    a clock that passes midnight after its first reading. *)
Definition ahead_fs : gmap string (gmap string string) :=
  {[ logs := {[ "2022-03-08.log" := "early" +:+ LF ]} ]}.

Definition over_midnight (k : nat) : DateTime :=
  match k with
  | O => noon 2022 3 7
  | S _ => noon 2022 3 8
  end.

Definition overlap_run : list Event :=
  [CallGetLogger "bot" None; CallInfo 0%nat (JString "one") []].

(** ** Reading dates back

    The ISO date of an instant determines its calendar day: the digits
    are read back by the standard library's decimal parser, which skips
    the padding. *)

Definition digits_value (s : string) : option N :=
  N.of_uint <$> NilEmpty.uint_of_string s.



(** ** Invariants

    The control state: the fields the registry and the archival guard
    live in.  File and console operations leave them alone. *)

Definition same_control (w w' : World) : Prop :=
  isArchiving w' = isArchiving w ∧ streams w' = streams w ∧
  heap w' = heap w ∧ loggers w' = loggers w.

(** The guard invariant: a running compaction implies the flag, at most
    one compaction runs, and every stream has at most one listener. *)
Definition guarded (w : World) : Prop :=
  (isArchiving w = false → inProgress w = []) ∧
  (length (inProgress w) ≤ 1)%nat ∧
  Forall (fun s => length (on_end s) ≤ 1)%nat (streams w).

(** The registry invariant: every registered reference is allocated. *)
Definition registry_ok (w : World) : Prop :=
  ∀ ns r, loggers w !! ns = Some r → (r < length (heap w))%nat.

(** The registry only grows: references stay allocated, objects stay
    where they are, and names keep their reference. *)
Definition extends (w w' : World) : Prop :=
  (∃ more, heap w' = heap w ++ more) ∧
  (∀ ns r, loggers w !! ns = Some r → loggers w' !! ns = Some r).

(** ** Invariants of the registry and of the archiver *)

(** Every registered name leads to an object carrying that name, and
    every object is registered under its own name. *)
Definition registry_wf (w : World) : Prop :=
  (∀ ns r, loggers w !! ns = Some r →
     ∃ obj, heap w !! r = Some obj ∧ namespace obj = ns) ∧
  (∀ r obj, heap w !! r = Some obj → loggers w !! namespace obj = Some r).

(** A stream as [log] sets it up: one listener, the archive next to the
    inputs, the inputs distinct files ending in [.log]. *)
Definition stream_wf `{Host} (s : Stream) : Prop :=
  ∃ l, on_end s = [l] ∧
       archive s = path_join (dir (this l)) "archive.7z" ∧
       inputs s = map (path_join (dir (this l))) (needArchive l) ∧
       options s = sz_options ∧
       Forall (fun n => endsWith n ".log" = true) (needArchive l) ∧
       NoDup (needArchive l).

(** The files a running compaction will delete are on disk. *)
Definition pending_ok (w : World) : Prop :=
  ∀ s l n, s ∈ streams w → isRunning s = true → l ∈ on_end s → n ∈ needArchive l →
    is_Some (read_file (fs w) (path_join (dir (this l)) n)).

Definition archiver_ok `{Host} (w : World) : Prop :=
  guarded w ∧ Forall stream_wf (streams w) ∧ pending_ok w.

(** An event that only touches the environment or the registry. *)
Definition quiet (w w' : World) : Prop :=
  fs w' = fs w ∧ stdout w' = stdout w ∧ ticks w' = ticks w ∧
  isArchiving w' = isArchiving w ∧ streams w' = streams w ∧
  manifest w' = manifest w ∧ clock w' = clock w.

(** The content of the follow-up line the ["end"] listener logs. *)
Definition archive_notice (names : list string) : string :=
  "[Logger] Archived " +:+ dec (N.of_nat (length names))
  +:+ " log file(s): " +:+ join ", " names.

(** The namespace [getDefault] asks for. *)
Definition default_namespace (m : Manifest) : string :=
  match m with
  | PackageJson (Some n) => if decide (n = "") then "default" else n
  | _ => "default"
  end.


(** ** getenv.test.ts: fresh variable names

    [genKey] with its counter [i] made explicit; [randomKey] is the text
    [Math.floor(Math.random() * 0xffffffff).toString(32).toUpperCase()]
    of the call. *)
Definition genKey (randomKey : string) (i : N) : string * N :=
  ("TEST_" +:+ randomKey +:+ "_" +:+ dec i, (i + 1)%N).

(** The keys of successive calls. *)
Fixpoint genKeys (randomKeys : list string) (i : N) : list string :=
  match randomKeys with
  | [] => []
  | rk :: rest => (genKey rk i).1 :: genKeys rest (genKey rk i).2
  end.

(** * Properties *)

(** ** Appending strings *)

Lemma append_cons a (s t : string) : String a s +:+ t = String a (s +:+ t).
Proof. reflexivity. Qed.

Lemma append_nil_r (s : string) : s +:+ "" = s.
Proof. induction s as [|a s IH]; [done | by rewrite append_cons, IH]. Qed.


Lemma length_append (s t : string) :
  String.length (s +:+ t) = (String.length s + String.length t)%nat.
Proof. induction s as [|a s IH]; [done | rewrite append_cons; simpl; by rewrite IH]. Qed.





(** ** An ISO date determines its calendar day *)

Lemma digits_dec n : digits_value (dec n) = Some n.
Proof.
  unfold digits_value, dec, NilZero.string_of_uint.
  pose proof (DecimalN.Unsigned.of_to n) as Hn.
  destruct (N.to_uint n) eqn:E; rewrite <- Hn; [done | by rewrite NilEmpty.usu ..].
Qed.










(** ** Sorting and filtering *)

Lemma StronglySorted_filter {A} (R : relation A) (P : A → Prop)
    `{!∀ x, Decision (P x)} (l : list A) :
  StronglySorted R l → StronglySorted R (filter P l).
Proof.
  induction 1 as [|x l Hl IH Hx]; [constructor|].
  rewrite filter_cons. destruct (decide (P x)); [|done].
  constructor; [done|]. rewrite Forall_forall in Hx |- *.
  intros y [_ Hy]%list_elem_of_filter. by apply Hx.
Qed.

Lemma units_leb_total (a b : list N) : units_leb a b = true ∨ units_leb b a = true.
Proof.
  revert b. induction a as [|x a IH]; intros [|y b]; simpl; auto.
  rewrite (N.compare_antisym x y).
  destruct (x ?= y)%N; simpl; auto.
Qed.

Lemma units_leb_trans (a b c : list N) :
  units_leb a b = true → units_leb b c = true → units_leb a c = true.
Proof.
  revert b c. induction a as [|x a IH]; intros [|y b] [|z c]; simpl; try done.
  destruct (N.compare_spec x y), (N.compare_spec y z), (N.compare_spec x z);
    subst; try done; try lia; eauto.
Qed.

#[global] Instance js_le_total `{Host} : Total js_le.
Proof. intros s t. apply units_leb_total. Qed.

#[global] Instance js_le_trans `{Host} : Transitive js_le.
Proof. intros s t u. apply units_leb_trans. Qed.

Lemma sort_sorted `{Host} (l : list string) : StronglySorted js_le (sort l).
Proof. apply StronglySorted_merge_sort; apply _. Qed.

Lemma elem_of_sort `{Host} (x : string) l : x ∈ sort l ↔ x ∈ l.
Proof. unfold sort. by rewrite merge_sort_Permutation. Qed.

Lemma NoDup_sort `{Host} (l : list string) : NoDup l → NoDup (sort l).
Proof. unfold sort. by rewrite merge_sort_Permutation. Qed.

Lemma elem_of_archivable f today l :
  f ∈ archivable today l ↔ f ∈ l ∧ endsWith f ".log" = true ∧ f ≠ today.
Proof. unfold archivable. rewrite list_elem_of_filter. tauto. Qed.

(** ** The file system *)

Lemma mkdir_lookup (f : gmap string (gmap string string)) d :
  (match f !! d with Some _ => f | None => <[d := ∅]> f end) !! d
  = Some (default ∅ (f !! d)).
Proof. destruct (f !! d) eqn:E; simpl; [done | apply lookup_insert_eq]. Qed.

Lemma insert_mkdir (f : gmap string (gmap string string)) d X :
  <[d := X]> (match f !! d with Some _ => f | None => <[d := ∅]> f end) = <[d := X]> f.
Proof. destruct (f !! d); [done | apply insert_insert_eq]. Qed.

Lemma read_file_insert (f : gmap string (gmap string string)) d es p :
  read_file (<[d := es]> f) p
  = if decide (folder p = d) then es !! entry p else read_file f p.
Proof.
  unfold read_file. destruct (decide (folder p = d)) as [->|N].
  - by rewrite lookup_insert_eq.
  - by rewrite lookup_insert_ne.
Qed.

Section Facts.
Context `{Host}.
Variable rev : Revision.

Lemma bind_now {B} (k : DateTime → M B) w :
  bind DateTime_now_toUTC k w = k (clock w (ticks w)) (set_ticks S w).
Proof. reflexivity. Qed.

Lemma bind_stdout_write {B} chunk (k : unit → M B) w :
  bind (stdout_write chunk) k w = k tt (set_stdout (fun out => out ++ [chunk]) w).
Proof. reflexivity. Qed.

Lemma bind_append_after_mkdir {B} d name data (k : unit → M B) w :
  bind (mkdirSync_recursive d) (fun _ => bind (appendFileSync (path_join d name) data) k) w
  = k tt (set_fs (fun f =>
            <[d := <[name := default "" (default ∅ (fs w !! d) !! name) +:+ data]>
                     (default ∅ (fs w !! d))]> f) w).
Proof.
  unfold bind, mkdirSync_recursive, appendFileSync.
  cbn [fs set_fs folder entry]. rewrite mkdir_lookup.
  unfold set_fs. cbn [fs env stdout clock ticks manifest isArchiving heap loggers streams].
  by rewrite insert_mkdir.
Qed.

Lemma bind_readdir {B} d es (k : list string → M B) w :
  fs w !! d = Some es → bind (readdirSync d) k w = k (map fst (map_to_list es)) w.
Proof. intros E. unfold bind, readdirSync. by rewrite E. Qed.

Lemma bind_read_isArchiving {B} (k : bool → M B) w :
  bind read_isArchiving k w = k (isArchiving w) w.
Proof. reflexivity. Qed.

Lemma launch_unfold a ins o l w :
  bind (write_isArchiving true)
    (fun _ => bind (sz_update a ins o) (fun stream => stream_on_end stream l)) w
  = (Return tt,
     set_streams (fun ss => ss ++ [{| archive := a; inputs := ins; options := o;
                                      on_end := [l]; status := Running |}])
       (set_isArchiving true w)).
Proof.
  unfold bind, write_isArchiving, sz_update, stream_on_end, set_streams, set_isArchiving.
  cbn [fs env stdout clock ticks manifest isArchiving heap loggers streams].
  by rewrite alter_app_r_alt, Nat.sub_diag by done.
Qed.

Lemma log_unfold this level content fmt w :
  log rev this level content fmt w =
  (Return tt,
   if launches rev this level content fmt w
   then launched rev this level content fmt w
   else written rev this level content fmt w).
Proof.
  unfold log. rewrite bind_now, bind_stdout_write, bind_append_after_mkdir.
  rewrite (bind_readdir _ (entries_after rev this level content fmt w))
    by apply lookup_insert_eq.
  rewrite bind_read_isArchiving.
  unfold launches, launched.
  change (isArchiving (set_fs _ _)) with (isArchiving w).
  destruct (negb (isArchiving w) && _); [|reflexivity].
  rewrite launch_unfold. reflexivity.
Qed.

Lemma log_returns this level content fmt w :
  (log rev this level content fmt w).1 = Return tt.
Proof. by rewrite log_unfold. Qed.

Lemma log_stdout this level content fmt w :
  stdout (exec (log rev this level content fmt) w)
  = stdout w ++ [paint (DEFAULT_COLORS rev level) (line_of rev this level content fmt w)].
Proof. unfold exec. rewrite log_unfold. simpl. by destruct launches. Qed.

Lemma log_fs this level content fmt w :
  fs (exec (log rev this level content fmt) w)
  = <[dir this := entries_after rev this level content fmt w]> (fs w).
Proof. unfold exec. rewrite log_unfold. simpl. by destruct launches. Qed.


Lemma log_registry this level content fmt w :
  heap (exec (log rev this level content fmt) w) = heap w ∧
  loggers (exec (log rev this level content fmt) w) = loggers w.
Proof. unfold exec. rewrite log_unfold. simpl. by destruct launches. Qed.

Lemma log_streams this level content fmt w :
  streams (exec (log rev this level content fmt) w)
  = if launches rev this level content fmt w
    then streams w ++ [stream_of rev this level content fmt w]
    else streams w.
Proof. unfold exec. rewrite log_unfold. simpl. by destruct launches. Qed.

Lemma log_isArchiving this level content fmt w :
  isArchiving (exec (log rev this level content fmt) w)
  = isArchiving w || launches rev this level content fmt w.
Proof.
  unfold exec. rewrite log_unfold. simpl. unfold launches.
  destruct (isArchiving w) eqn:E; simpl; [done|].
  destruct (negb _) eqn:E2; simpl; done.
Qed.

(** The file [log] appends to, before and after the call. *)
Lemma log_read_file this level content fmt w p :
  read_file (fs (exec (log rev this level content fmt) w)) p
  = if decide (p = path_join (dir this) (filename_of w))
    then Some (default "" (read_file (fs w) p) +:+ line_of rev this level content fmt w)
    else read_file (fs w) p.
Proof.
  rewrite log_fs, read_file_insert. unfold entries_after.
  destruct p as [d e]. simpl.
  destruct (decide (d = dir this)) as [->|N].
  - destruct (decide (e = filename_of w)) as [->|N2].
    + rewrite decide_True by done. rewrite lookup_insert_eq.
      unfold read_file. simpl. by destruct (fs w !! dir this).
    + rewrite decide_False by congruence. rewrite lookup_insert_ne by done.
      unfold read_file. simpl. by destruct (fs w !! dir this).
  - by rewrite decide_False by congruence.
Qed.

End Facts.

(** ** Frames and invariants *)

Lemma same_control_refl w : same_control w w.
Proof. by repeat split. Qed.

Lemma same_control_trans w1 w2 w3 :
  same_control w1 w2 → same_control w2 w3 → same_control w1 w3.
Proof. unfold same_control. intros (?&?&?&?) (?&?&?&?). repeat split; congruence. Qed.

Lemma exec_bind {A B} (m : M A) (k : A → M B) w :
  exec (bind m k) w
  = match m w with
    | (Return a, w') => exec (k a) w'
    | (Throw _, w') => w'
    end.
Proof. unfold exec, bind. by destruct (m w) as [[a|e] w']. Qed.

Lemma rmSync_control p w : same_control w (exec (rmSync p) w).
Proof.
  unfold exec, rmSync. destruct (fs w !! folder p) as [es|]; [|apply same_control_refl].
  destruct (es !! entry p); by repeat split.
Qed.

Lemma rm_loop_control d (l : list string) w :
  same_control w (exec (for_of l (fun file => rmSync (path_join d file))) w).
Proof.
  revert w. induction l as [|x l IH]; intros w; [apply same_control_refl|].
  simpl. rewrite exec_bind.
  pose proof (rmSync_control (path_join d x) w) as Hrm. unfold exec in Hrm.
  destruct (rmSync (path_join d x) w) as [[[]|e] w1]; simpl in Hrm; [|done].
  eapply same_control_trans; [exact Hrm | apply IH].
Qed.

Lemma running_alter_stop (ss : list Stream) i s st :
  ss !! i = Some s → isRunning s = true → st ≠ Running →
  S (length (running (alter (set_status st) i ss))) = length (running ss).
Proof.
  intros Hi Hs Hst. unfold running. revert i Hi.
  induction ss as [|a ss IH]; intros [|i] Hi; simplify_eq/=.
  - assert (isRunning (set_status st s) = false) as E.
    { unfold isRunning. simpl. by apply bool_decide_eq_false. }
    rewrite !filter_cons, E, Hs. done.
  - rewrite !filter_cons. destruct (decide (isRunning a = true)); simpl; by rewrite IH.
Qed.

Lemma none_running (ss : list Stream) i s :
  running ss = [] → ss !! i = Some s → isRunning s = false.
Proof.
  intros E Hi. destruct (isRunning s) eqn:R; [|done].
  assert (s ∈ running ss) as Hin.
  { apply list_elem_of_filter. split; [done|]. by eapply list_elem_of_lookup_2. }
  rewrite E in Hin. by apply not_elem_of_nil in Hin.
Qed.

Lemma on_end_alter_status (ss : list Stream) i st :
  Forall (fun s => length (on_end s) ≤ 1)%nat ss →
  Forall (fun s => length (on_end s) ≤ 1)%nat (alter (set_status st) i ss).
Proof.
  intros Hall. revert i. induction Hall as [|a ss Ha Hall IH]; intros [|i]; simpl;
    constructor; try done. apply IH.
Qed.

Section Control.
Context `{Host}.
Variable rev : Revision.

Lemma launches_archiving self level content fmt w :
  isArchiving w = true → launches rev self level content fmt w = false.
Proof. unfold launches. by intros ->. Qed.

(** While an archival is in progress [log] starts nothing. *)
Lemma log_control_archiving self level content fmt w :
  isArchiving w = true → same_control w (exec (log rev self level content fmt) w).
Proof.
  intros E. unfold same_control.
  rewrite log_isArchiving, log_streams, launches_archiving, E by done.
  split; [done|]. split; [done|]. apply log_registry.
Qed.

Lemma on_archive_end_registry l w :
  heap (exec (on_archive_end rev l) w) = heap w ∧
  loggers (exec (on_archive_end rev l) w) = loggers w.
Proof.
  unfold on_archive_end. rewrite exec_bind.
  pose proof (rm_loop_control (dir (this l)) (needArchive l) w) as (_&_&Hh&Hl).
  unfold exec in Hh, Hl.
  destruct (for_of _ _ w) as [[[]|e] w1]; simpl in Hh, Hl; [|done].
  rewrite exec_bind, log_unfold. unfold exec, write_isArchiving. simpl.
  destruct launches; simpl; by rewrite Hh, Hl.
Qed.

Lemma on_archive_end_archiving l w :
  isArchiving w = true → streams (exec (on_archive_end rev l) w) = streams w.
Proof.
  intros E. unfold on_archive_end. rewrite exec_bind.
  pose proof (rm_loop_control (dir (this l)) (needArchive l) w) as (Ha&Hs&_&_).
  unfold exec in Ha, Hs.
  destruct (for_of _ _ w) as [[[]|e] w1]; simpl in Ha, Hs; [|done].
  rewrite exec_bind, log_unfold, launches_archiving by congruence.
  unfold exec, write_isArchiving. simpl. done.
Qed.

Lemma listeners_registry (ls : list EndListener) w :
  heap (exec (for_of ls (on_archive_end rev)) w) = heap w ∧
  loggers (exec (for_of ls (on_archive_end rev)) w) = loggers w.
Proof.
  revert w. induction ls as [|l ls IH]; intros w; [done|].
  simpl. rewrite exec_bind.
  pose proof (on_archive_end_registry l w) as [Hh Hl]. unfold exec in Hh, Hl.
  destruct (on_archive_end rev l w) as [[[]|e] w1]; simpl in Hh, Hl; [|done].
  destruct (IH w1) as [-> ->]. done.
Qed.

Lemma sz_end_registry i w :
  heap (exec (sz_end rev i) w) = heap w ∧ loggers (exec (sz_end rev i) w) = loggers w.
Proof.
  unfold exec, sz_end. destruct (streams w !! i) as [s|]; [|done].
  destruct (isRunning s); [|done].
  apply (listeners_registry (on_end s)
           (set_fs (sz_write s) (set_streams (alter (set_status Ended) i) w))).
Qed.

Lemma sz_error_control i w :
  isArchiving (exec (sz_error i) w) = isArchiving w ∧
  heap (exec (sz_error i) w) = heap w ∧ loggers (exec (sz_error i) w) = loggers w.
Proof.
  unfold exec, sz_error. destruct (streams w !! i) as [s|]; [|done].
  by destruct (isRunning s).
Qed.

Lemma getLogger_control ns o w :
  isArchiving (exec (getLogger rev ns o) w) = isArchiving w ∧
  streams (exec (getLogger rev ns o) w) = streams w.
Proof. unfold exec, getLogger. by destruct (loggers w !! ns). Qed.

Lemma exec_then_ret {A} (m : M A) w : exec (m >> ret tt) w = exec m w.
Proof. rewrite exec_bind. unfold exec. by destruct (m w) as [[a|e] w']. Qed.

Lemma getDefault_getLogger w :
  ∃ ns, getDefault rev w = getLogger rev ns None w.
Proof.
  unfold getDefault, bind, try_catch, appRoot_require_name.
  destruct (manifest w); by eexists.
Qed.

(** Every event is a call of [log], a call of [getLogger], the end or
    the failure of a child, or leaves the control state alone. *)
Lemma step_cases w ev :
  same_control w (step rev w ev) ∨
  (∃ self level content fmt, step rev w ev = exec (log rev self level content fmt) w) ∨
  (∃ ns o, step rev w ev = exec (getLogger rev ns o) w) ∨
  (∃ i, step rev w ev = exec (sz_end rev i) w) ∨
  (∃ i, step rev w ev = exec (sz_error i) w).
Proof.
  assert (Hcall : ∀ r level content fmt,
    same_control w (exec (call r (fun self => log rev self level content fmt)) w) ∨
    ∃ self l c f,
      exec (call r (fun self => log rev self level content fmt)) w
      = exec (log rev self l c f) w).
  { intros r level content fmt. unfold call, exec.
    destruct (heap w !! r) as [self|]; [right | left; apply same_control_refl].
    by exists self, level, content, fmt. }
  destruct ev as [ns o| |r level content fmt|r content fmt|r content fmt
                  |r content fmt|r content fmt|name number assert|name value|i|i];
    unfold step; simpl.
  - right; right; left. exists ns, o. apply exec_then_ret.
  - right; right; left. destruct (getDefault_getLogger w) as [ns E].
    exists ns, None. rewrite exec_then_ret. unfold exec. by rewrite E.
  - destruct (Hcall r level content fmt) as [?|?]; [by left | right; by left].
  - destruct (Hcall r VERBOSE (JString (normalize content)) fmt) as [?|?];
      [by left | right; by left].
  - destruct (Hcall r INFO (JString (normalize content)) fmt) as [?|?];
      [by left | right; by left].
  - destruct (Hcall r WARNING (JString (normalize content)) fmt) as [?|?];
      [by left | right; by left].
  - destruct (Hcall r ERROR (JString (normalize content)) fmt) as [?|?];
      [by left | right; by left].
  - left. rewrite exec_then_ret. unfold exec, getenv.
    destruct (env w !! name); [|destruct assert; apply same_control_refl].
    destruct number; [|apply same_control_refl].
    destruct (isNaN _); [destruct assert|]; apply same_control_refl.
  - left. unfold exec, process_env_set. destruct (_ && _); by repeat split.
  - right; right; right; left. by exists i.
  - right; right; right; right. by exists i.
Qed.

Lemma guarded_control w w' : same_control w w' → guarded w → guarded w'.
Proof. unfold guarded, inProgress. by intros (-> & -> & _ & _). Qed.

Lemma guarded_log self level content fmt w :
  guarded w → guarded (exec (log rev self level content fmt) w).
Proof.
  intros (Hflag & Hlen & Hls). unfold guarded, inProgress in *.
  rewrite log_isArchiving, log_streams.
  destruct (launches rev self level content fmt w) eqn:L.
  - assert (isArchiving w = false) as E.
    { unfold launches in L. by destruct (isArchiving w). }
    unfold running in *. rewrite filter_app, (Hflag E), E. simpl.
    split; [done|]. split; [done|].
    apply Forall_app. split; [done|]. by repeat constructor.
  - by rewrite orb_false_r.
Qed.

Lemma guarded_sz_end i w : guarded w → guarded (exec (sz_end rev i) w).
Proof.
  intros (Hflag & Hlen & Hls). unfold exec, sz_end.
  destruct (streams w !! i) as [s|] eqn:Hi; [|done].
  destruct (isRunning s) eqn:R; [|done].
  pose proof (running_alter_stop (streams w) i s Ended Hi R) as Hstop.
  unfold inProgress in *.
  assert (isArchiving w = true) as E.
  { destruct (isArchiving w) eqn:E; [done|].
    by rewrite (none_running _ _ _ (Hflag eq_refl) Hi) in R. }
  assert (running (alter (set_status Ended) i (streams w)) = []) as Hnone.
  { apply length_zero_iff_nil. specialize (Hstop ltac:(done)). lia. }
  set (w0 := set_fs (sz_write s) (set_streams (alter (set_status Ended) i) w)).
  assert (streams (for_of (on_end s) (on_archive_end rev) w0).2 = streams w0) as Hsame.
  { pose proof (proj1 (Forall_forall _ _) Hls s (list_elem_of_lookup_2 _ _ _ Hi)) as Hone.
    simpl in Hone. destruct (on_end s) as [|l [|l2 ls]]; simpl in Hone; [done| |lia].
    change (for_of [l] (on_archive_end rev)) with (on_archive_end rev l >> ret tt).
    change ((?m w0).2) with (exec m w0). rewrite exec_then_ret.
    by apply on_archive_end_archiving. }
  unfold guarded, inProgress. rewrite Hsame. simpl. rewrite Hnone.
  split; [done|]. split; [simpl; lia|]. by apply on_end_alter_status.
Qed.

Lemma guarded_sz_error i w : guarded w → guarded (exec (sz_error i) w).
Proof.
  intros (Hflag & Hlen & Hls). unfold exec, sz_error.
  destruct (streams w !! i) as [s|] eqn:Hi; [|done].
  destruct (isRunning s) eqn:R; [|done].
  pose proof (running_alter_stop (streams w) i s Failed Hi R ltac:(done)) as Hstop.
  unfold guarded, inProgress in *. simpl.
  assert (running (alter (set_status Failed) i (streams w)) = []) as ->.
  { apply length_zero_iff_nil. lia. }
  split; [done|]. split; [simpl; lia|]. by apply on_end_alter_status.
Qed.

Lemma guarded_step w ev : guarded w → guarded (step rev w ev).
Proof.
  intros G.
  destruct (step_cases w ev)
    as [C|[(self&level&content&fmt& ->)|[(ns&o& ->)|[(i& ->)|(i& ->)]]]].
  - by eapply guarded_control.
  - by apply guarded_log.
  - destruct (getLogger_control ns o w) as [Ea Es].
    destruct G as (?&?&?). unfold guarded, inProgress in *. by rewrite Ea, Es.
  - by apply guarded_sz_end.
  - by apply guarded_sz_error.
Qed.

Lemma guarded_run evs w : guarded w → guarded (run rev evs w).
Proof.
  revert w. induction evs as [|ev evs IH]; intros w G; [done|].
  simpl. apply IH, guarded_step, G.
Qed.

Lemma guarded_boot e f c m : guarded (boot e f c m).
Proof. repeat split; simpl; [lia | constructor]. Qed.

Lemma extends_refl w : extends w w.
Proof. split; [exists []; by rewrite app_nil_r | done]. Qed.

Lemma extends_trans w1 w2 w3 : extends w1 w2 → extends w2 w3 → extends w1 w3.
Proof.
  intros [[m1 E1] L1] [[m2 E2] L2]. split; [|by auto].
  exists (m1 ++ m2). by rewrite E2, E1, app_assoc.
Qed.

Lemma extends_same w w' : heap w' = heap w → loggers w' = loggers w → extends w w'.
Proof. intros Eh El. split; [exists []; by rewrite app_nil_r | by rewrite El]. Qed.

Lemma registry_same w w' :
  heap w' = heap w → loggers w' = loggers w → registry_ok w → registry_ok w'.
Proof. unfold registry_ok. by intros -> ->. Qed.

Lemma getLogger_registry ns o w :
  registry_ok w →
  registry_ok (exec (getLogger rev ns o) w) ∧ extends w (exec (getLogger rev ns o) w).
Proof.
  intros Hok. unfold exec, getLogger.
  destruct (loggers w !! ns) as [r|] eqn:E; simpl; [split; [done | apply extends_refl]|].
  split.
  - intros ns' r. simpl. rewrite length_app. simpl.
    destruct (decide (ns = ns')) as [->|N].
    + rewrite lookup_insert_eq. intros [= <-]. lia.
    + rewrite lookup_insert_ne by done. intros Hr%Hok. lia.
  - split; [by eexists|]. simpl. intros ns' r Hr.
    rewrite lookup_insert_ne; [done | congruence].
Qed.

Lemma step_registry w ev :
  registry_ok w → registry_ok (step rev w ev) ∧ extends w (step rev w ev).
Proof.
  intros Hok.
  destruct (step_cases w ev)
    as [(_&_&Eh&El)|[(self&level&content&fmt& ->)|[(ns&o& ->)|[(i& ->)|(i& ->)]]]].
  - split; [by eapply registry_same | by apply extends_same].
  - destruct (log_registry rev self level content fmt w) as [Eh El].
    split; [by eapply registry_same | by apply extends_same].
  - by apply getLogger_registry.
  - destruct (sz_end_registry i w) as [Eh El].
    split; [by eapply registry_same | by apply extends_same].
  - destruct (sz_error_control i w) as (_ & Eh & El).
    split; [by eapply registry_same | by apply extends_same].
Qed.

Lemma run_registry evs w :
  registry_ok w → registry_ok (run rev evs w) ∧ extends w (run rev evs w).
Proof.
  revert w. induction evs as [|ev evs IH]; intros w Hok;
    [split; [done | apply extends_refl]|].
  simpl. destruct (step_registry w ev Hok) as [Hok1 Hex1].
  destruct (IH _ Hok1) as [Hok2 Hex2].
  split; [done | by eapply extends_trans].
Qed.

Lemma registry_boot e f c m : registry_ok (boot e f c m).
Proof. intros ns r. simpl. by rewrite lookup_empty. Qed.

(** Once the flag is set with no compaction running, nothing clears it
    and nothing starts a compaction. *)
Lemma wedged_step w ev :
  isArchiving w = true → inProgress w = [] →
  isArchiving (step rev w ev) = true ∧ streams (step rev w ev) = streams w.
Proof.
  intros E Hnone.
  destruct (step_cases w ev)
    as [(Ea&Es&_&_)|[(self&level&content&fmt& ->)|[(ns&o& ->)|[(i& ->)|(i& ->)]]]].
  - by rewrite Ea, Es.
  - destruct (log_control_archiving self level content fmt w E) as (Ea&Es&_&_).
    by rewrite Ea, Es.
  - destruct (getLogger_control ns o w) as [Ea Es]. by rewrite Ea, Es.
  - unfold exec, sz_end. destruct (streams w !! i) as [s|] eqn:Hi; [|done].
    by rewrite (none_running _ _ _ Hnone Hi).
  - unfold exec, sz_error. destruct (streams w !! i) as [s|] eqn:Hi; [|done].
    by rewrite (none_running _ _ _ Hnone Hi).
Qed.

Lemma wedged_run evs w :
  isArchiving w = true → inProgress w = [] →
  isArchiving (run rev evs w) = true ∧ streams (run rev evs w) = streams w.
Proof.
  revert w. induction evs as [|ev evs IH]; intros w E Hnone; [done|].
  simpl. destruct (wedged_step w ev E Hnone) as [E1 Es1].
  destruct (IH (step rev w ev) E1) as [E2 Es2].
  - unfold inProgress. by rewrite Es1.
  - split; [done | congruence].
Qed.

End Control.

(** ** The concrete host strips what it paints *)








(** ** The code over an operating system *)

Lemma length_snoc {A} (l : list A) x : length (l ++ [x]) = S (length l).
Proof. rewrite length_app. simpl. lia. Qed.

Section SystemFacts.
Context `{Host}.
Variable rev : Revision.
Variable os : Os.

Lemma sys_bind_now {B} (k : DateTime → Sys B) m :
  sys_bind (inside DateTime_now_toUTC) k m
  = k (clock (world m) (ticks (world m)))
      {| world := set_ticks S (world m); trace := trace m |}.
Proof. reflexivity. Qed.

Lemma sys_bind_stdout_write {B} chunk (k : unit → Sys B) m :
  sys_bind (inside (stdout_write chunk)) k m
  = k tt {| world := set_stdout (fun out => out ++ [chunk]) (world m); trace := trace m |}.
Proof. reflexivity. Qed.

Lemma sys_bind_syscall {B} c (k : list string → Sys B) m :
  sys_bind (syscall os c) k m
  = let m' := {| world := world m;
                 trace := trace m ++ [(c, os (length (trace m)) c)] |} in
    match os (length (trace m)) c with
    | inl e => (Throw e, m')
    | inr names => k names m'
    end.
Proof. unfold sys_bind, syscall. by destruct (os _ c). Qed.

Lemma sys_bind_read_isArchiving {B} (k : bool → Sys B) m :
  sys_bind (inside read_isArchiving) k m
  = k (isArchiving (world m)) {| world := world m; trace := trace m |}.
Proof. reflexivity. Qed.

Lemma sys_launch_unfold a ins o l m :
  sys_bind (inside (write_isArchiving true))
    (fun _ => sys_bind (inside (sz_update a ins o))
                (fun stream => inside (stream_on_end stream l))) m
  = (Return tt,
     {| world :=
          set_streams (fun ss => ss ++ [{| archive := a; inputs := ins; options := o;
                                          on_end := [l]; status := Running |}])
            (set_isArchiving true (world m));
        trace := trace m |}).
Proof.
  unfold sys_bind, inside, write_isArchiving, sz_update, stream_on_end,
    set_streams, set_isArchiving.
  cbn [fst snd world trace fs env stdout clock ticks manifest isArchiving heap loggers streams].
  by rewrite alter_app_r_alt, Nat.sub_diag by done.
Qed.

Lemma log_sys_unfold self level content fmt m :
  let w := world m in
  let k := length (trace m) in
  let today := filename_of w in
  let c1 := fs_mkdirSync (dir self) in
  let c2 := fs_appendFileSync (path_join (dir self) today)
              (line_of rev self level content fmt w) in
  let c3 := fs_readdirSync (dir self) in
  let p := printed rev self level content fmt w in
  log_sys rev os self level content fmt m =
  match os k c1 with
  | inl e => (Throw e, {| world := p; trace := trace m ++ [(c1, os k c1)] |})
  | inr _ =>
      match os (S k) c2 with
      | inl e =>
          (Throw e, {| world := p; trace := trace m ++ [(c1, os k c1); (c2, os (S k) c2)] |})
      | inr _ =>
          let tr := trace m ++ [(c1, os k c1); (c2, os (S k) c2); (c3, os (S (S k)) c3)] in
          match os (S (S k)) c3 with
          | inl e => (Throw e, {| world := p; trace := tr |})
          | inr entries =>
              let names := archivable today (sort entries) in
              (Return tt,
               {| world :=
                    if negb (isArchiving w) && negb (bool_decide (length names = 0%nat))
                    then set_streams (fun ss => ss ++ [compaction_of self names])
                           (set_isArchiving true p)
                    else p;
                  trace := tr |})
          end
      end
  end.
Proof.
  intros w k today c1 c2 c3 p. subst w k today c1 c2 c3 p.
  unfold printed, line_of, filename_of, instant, log_sys.
  rewrite sys_bind_now, sys_bind_stdout_write, sys_bind_syscall.
  cbn [world trace]. cbv zeta.
  destruct (os (length (trace m)) _) as [e1|r1]; [done|].
  rewrite sys_bind_syscall. cbn [world trace]. cbv zeta. rewrite length_snoc.
  rewrite <- !app_assoc. simpl.
  destruct (os (S (length (trace m))) _) as [e2|r2]; [done|].
  rewrite sys_bind_syscall. cbn [world trace]. cbv zeta.
  rewrite length_app. simpl. rewrite Nat.add_comm. simpl.
  rewrite <- !app_assoc. simpl.
  destruct (os (S (S (length (trace m)))) _) as [e3|entries]; [done|].
  rewrite sys_bind_read_isArchiving. cbn [world trace].
  match goal with |- context [isArchiving (set_stdout ?f (set_ticks S ?x))] =>
    change (isArchiving (set_stdout f (set_ticks S x))) with (isArchiving x) end.
  destruct (negb (isArchiving (world m)) && _); [|reflexivity].
  rewrite sys_launch_unfold. reflexivity.
Qed.

End SystemFacts.

(** ** The listener over an operating system *)

Section ListenerFacts.
Context `{Host}.
Variable rev : Revision.
Variable os : Os.

Lemma machine_eta (m : Machine) : {| world := world m; trace := trace m ++ [] |} = m.
Proof. destruct m. simpl. by rewrite app_nil_r. Qed.

Lemma removed_app tr1 tr2 : removed (tr1 ++ tr2) = removed tr1 ++ removed tr2.
Proof. apply omap_app. Qed.

Lemma appended_app tr1 tr2 : appended (tr1 ++ tr2) = appended tr1 ++ appended tr2.
Proof. apply omap_app. Qed.

(** The deletion loop when every removal returns. *)
Lemma rm_loop_sys d names m :
  (∀ j f, names !! j = Some f →
          returns (os (length (trace m) + j)%nat (fs_rmSync (path_join d f)))) →
  ∃ new,
    sys_for_of names (fun file => syscall os (fs_rmSync (path_join d file)) >>> sys_ret tt) m
    = (Return tt, {| world := world m; trace := trace m ++ new |}) ∧
    length new = length names ∧
    removed new = map (path_join d) names ∧
    appended new = [].
Proof.
  revert m. induction names as [|f names IH]; intros m Hret.
  - exists []. by rewrite machine_eta.
  - destruct (Hret 0%nat f eq_refl) as [x Hx]. rewrite Nat.add_0_r in Hx.
    set (m1 := {| world := world m;
                  trace := trace m ++ [(fs_rmSync (path_join d f), inr x)] |}).
    destruct (IH m1) as (new & Hrun & Hlen & Hrm & Happ).
    { intros j g Hj. simpl. rewrite length_snoc.
      replace (S (length (trace m)) + j)%nat with (length (trace m) + S j)%nat by lia.
      by apply Hret. }
    exists ((fs_rmSync (path_join d f), inr x) :: new).
    split; [|split; [simpl; by rewrite Hlen | split; [simpl; by rewrite Hrm | done]]].
    cbn [sys_for_of]. unfold sys_bind at 1. rewrite sys_bind_syscall. cbv zeta.
    rewrite Hx. unfold sys_ret at 1. cbv beta iota. etrans; [exact Hrun|]. simpl.
    by rewrite <- app_assoc.
Qed.

(** The deletion loop when removal number [j] throws. *)
Lemma rm_loop_sys_throws d names m j f e :
  names !! j = Some f →
  (∀ i g, (i < j)%nat → names !! i = Some g →
          returns (os (length (trace m) + i)%nat (fs_rmSync (path_join d g)))) →
  os (length (trace m) + j)%nat (fs_rmSync (path_join d f)) = inl e →
  ∃ new,
    sys_for_of names (fun file => syscall os (fs_rmSync (path_join d file)) >>> sys_ret tt) m
    = (Throw e, {| world := world m; trace := trace m ++ new |}) ∧
    removed new = map (path_join d) (take j names) ∧
    appended new = [].
Proof.
  revert m j. induction names as [|g names IH]; intros m [|j] Hj Hret He; simplify_eq/=.
  - rewrite Nat.add_0_r in He.
    exists [(fs_rmSync (path_join d f), inl e)]. split; [|done].
    unfold sys_bind at 1. rewrite sys_bind_syscall. cbv zeta. by rewrite He.
  - destruct (Hret 0%nat g) as [x Hx]; [lia | done |]. rewrite Nat.add_0_r in Hx.
    set (m1 := {| world := world m;
                  trace := trace m ++ [(fs_rmSync (path_join d g), inr x)] |}).
    destruct (IH m1 j Hj) as (new & Hrun & Hrm & Happ).
    { intros i g' Hi Hg'. simpl. rewrite length_snoc.
      replace (S (length (trace m)) + i)%nat with (length (trace m) + S i)%nat by lia.
      apply Hret; [lia | done]. }
    { simpl. rewrite length_snoc.
      by replace (S (length (trace m)) + j)%nat with (length (trace m) + S j)%nat by lia. }
    exists ((fs_rmSync (path_join d g), inr x) :: new).
    split; [|split; [simpl; by rewrite Hrm | done]].
    unfold sys_bind at 1. rewrite sys_bind_syscall. cbv zeta.
    rewrite Hx. unfold sys_ret at 1. cbv beta iota. etrans; [exact Hrun|]. simpl.
    by rewrite <- app_assoc.
Qed.

End ListenerFacts.

(** * The claims *)

(** ** Writer *)



(** C8: each wrapper is [log] at its level; normalising the content
    beforehand changes nothing, since [log] normalises it the same way. *)
Theorem wrappers_are_log `{Host} rev self content fmt :
  verbose rev self content fmt = log rev self VERBOSE content fmt ∧
  info rev self content fmt = log rev self INFO content fmt ∧
  warn rev self content fmt = log rev self WARNING content fmt ∧
  error rev self content fmt = log rev self ERROR content fmt.
Proof. repeat split; reflexivity. Qed.

(** C6, on the code: the colour of the console chunk is looked up in
    [DEFAULT_COLORS]; the [colors] of the instance play no part, so two
    instances that differ only in their colours print the same chunk. *)
Theorem log_ignores_instance_colors `{Host} rev ns d cs1 cs2 level content fmt w :
  let a := {| namespace := ns; colors := cs1; dir := d |} in
  let b := {| namespace := ns; colors := cs2; dir := d |} in
  stdout (exec (log rev a level content fmt) w)
  = stdout (exec (log rev b level content fmt) w).
Proof. intros a b. by rewrite !log_stdout. Qed.

(** ** Registry *)

(** C10: [getDefault] asks for the namespace ["default"] when reading the
    manifest throws and also when the manifest's name is the empty
    string. *)
Theorem getDefault_fallback `{Host} rev w :
  manifest w = RequireThrows ∨ manifest w = PackageJson (Some "") →
  getDefault rev w = getLogger rev "default" None w.
Proof.
  intros [E|E]; unfold getDefault, bind, try_catch, appRoot_require_name;
    by rewrite E.
Qed.

(** C2: in any run of the process, a call of [getLogger] and any later
    call with the same namespace return the same reference, whatever the
    options of the later call and whatever happened in between; the
    later call changes nothing, and the object behind the reference is
    still the one the first call found or created, with the colours and
    directory of the first call's options when it created it. *)
Theorem getLogger_identity `{Host} rev e f c m before ns o1 between o2 :
  let w := run rev before (boot e f c m) in
  let first := getLogger rev ns o1 w in
  let w2 := run rev between first.2 in
  ∃ r obj,
    first.1 = Return r ∧
    getLogger rev ns o2 w2 = (Return r, w2) ∧
    heap first.2 !! r = Some obj ∧
    heap w2 !! r = Some obj ∧
    (loggers w !! ns = None → obj = newLogger rev ns o1).
Proof.
  intros w first w2.
  assert (Hok : registry_ok w).
  { apply run_registry, registry_boot. }
  destruct (getLogger_registry rev ns o1 w Hok) as [Hok1 _].
  assert (Hfirst : ∃ r obj, first.1 = Return r ∧
            loggers first.2 !! ns = Some r ∧
            heap first.2 !! r = Some obj ∧
            (loggers w !! ns = None → obj = newLogger rev ns o1)).
  { unfold first, getLogger.
    destruct (loggers w !! ns) as [r|] eqn:E; simpl.
    - destruct (lookup_lt_is_Some_2 (heap w) r (Hok _ _ E)) as [obj Hobj].
      by exists r, obj.
    - exists (length (heap w)), (newLogger rev ns o1).
      rewrite lookup_insert_eq. repeat split.
      by rewrite lookup_app_r, Nat.sub_diag by lia. }
  destruct Hfirst as (r & obj & Hr & Hreg & Hobj & Hnew).
  destruct (run_registry rev between first.2 Hok1) as [_ [[more Hheap] Hkeep]].
  exists r, obj. repeat split; [done | | done | | done].
  - unfold getLogger. fold w2 in Hkeep. by rewrite (Hkeep _ _ Hreg).
  - fold w2 in Hheap. rewrite Hheap. by apply lookup_app_l_Some.
Qed.

(** ** The environment accessor *)

(** C9: [getenv] on an unset variable returns null, or throws under
    [assert]; on a set variable it returns the raw string, or with
    [number] the parsed number, a value that parses to NaN counting as
    unset. *)
Theorem getenv_cases `{Host} name w :
  (env w !! name = None →
     ∀ number,
       getenv name number false w = (Return Null, w) ∧
       ∃ e, getenv name number true w = (Throw e, w)) ∧
  (∀ value, env w !! name = Some value →
     (∀ assert, getenv name false assert w = (Return (Str value), w)) ∧
     (isNaN (parseFloat value) = false →
        ∀ assert, getenv name true assert w = (Return (Num (parseFloat value)), w)) ∧
     (isNaN (parseFloat value) = true →
        getenv name true false w = (Return Null, w) ∧
        ∃ e, getenv name true true w = (Throw e, w))).
Proof.
  split.
  - intros E number. unfold getenv. rewrite E. split; [done | by eexists].
  - intros value E. unfold getenv. rewrite E. split; [done|]. split.
    + intros N assert. by rewrite N.
    + intros N. rewrite N. split; [done | by eexists].
Qed.

(** ** Archiver *)

(** C3, as amended: when the three file-system calls of a call to [log]
    return, the names it hands to the compaction are exactly the
    entries of the listing returned by [readdirSync], files and
    subdirectories alike, that end in [.log] and differ from the file
    name of the current UTC date, each as often as listed, in the order
    of their UTF-16 code units.  The file that call has just appended
    to is not among them.  The compaction is started on them when they
    are not empty and no archival is in progress, and not otherwise. *)
Theorem compaction_inputs `{Host} rev os self level content fmt m entries :
  let w := world m in
  let t := clock w (ticks w) in
  let today := toISODate t +:+ ".log" in
  let line := message_of rev self level (toISO t) (format (normalize content) fmt) +:+ LF in
  let k := length (trace m) in
  let r := log_sys rev os self level content fmt m in
  returns (os k (fs_mkdirSync (dir self))) →
  returns (os (S k) (fs_appendFileSync (path_join (dir self) today) line)) →
  os (S (S k)) (fs_readdirSync (dir self)) = inr entries →
  ∃ names,
    (∀ f, f ∈ names ↔ f ∈ entries ∧ endsWith f ".log" = true ∧ f ≠ today) ∧
    names ≡ₚ filter (fun f => endsWith f ".log" = true ∧ f ≠ today) entries ∧
    StronglySorted js_le names ∧
    (∃ new, trace r.2 = trace m ++ new ∧
            appended new = [(path_join (dir self) today, line)]) ∧
    ¬ (path_join (dir self) today ∈ map (path_join (dir self)) names) ∧
    (if negb (isArchiving w) && negb (bool_decide (names = []))
     then ∃ s, streams (world r.2) = streams w ++ [s] ∧
               status s = Running ∧
               archive s = path_join (dir self) "archive.7z" ∧
               inputs s = map (path_join (dir self)) names ∧
               on_end s = [{| this := self; needArchive := names |}]
     else streams (world r.2) = streams w).
Proof.
  intros w t today line k r [r1 E1] [r2 E2] E3.
  pose proof (log_sys_unfold rev os self level content fmt m) as E.
  cbv zeta in E. unfold printed, line_of, filename_of, instant in E.
  fold w t today line k in E. rewrite E1, E2, E3 in E. fold r in E.
  set (names := archivable today (sort entries)) in *.
  exists names.
  assert (Hmem : ∀ f, f ∈ names ↔ f ∈ entries ∧ endsWith f ".log" = true ∧ f ≠ today).
  { intros f. unfold names. by rewrite elem_of_archivable, elem_of_sort. }
  split; [exact Hmem|].
  split.
  { unfold names, archivable, sort. by rewrite merge_sort_Permutation. }
  split; [apply StronglySorted_filter, sort_sorted|].
  split.
  { rewrite E. eexists. split; [reflexivity|]. done. }
  split.
  { rewrite list_elem_of_fmap. intros (f & [= <-] & Hf%Hmem). tauto. }
  rewrite E. clear E. simpl.
  replace (bool_decide (length names = 0%nat)) with (bool_decide (names = [])).
  2:{ apply bool_decide_ext. split; [by intros -> | apply length_zero_iff_nil]. }
  destruct (negb (isArchiving w) && negb (bool_decide (names = []))); simpl; [|done].
  by eexists.
Qed.

(** C5: the guard is one flag of the process, not of a Logger: for every
    instance, [log] starts a compaction only if the flag is clear, and
    the flag is set once it has; and in every run of the process, with
    calls on any instances in any order, at most one compaction is in
    progress, none when the flag is clear. *)
Theorem one_compaction_at_a_time `{Host} rev :
  (∀ self level content fmt w,
     let w' := exec (log rev self level content fmt) w in
     streams w' = streams w ∨
     (isArchiving w = false ∧ isArchiving w' = true ∧
      ∃ s, streams w' = streams w ++ [s] ∧ status s = Running)) ∧
  (∀ e f c m evs,
     let w := run rev evs (boot e f c m) in
     (length (inProgress w) ≤ 1)%nat ∧
     (isArchiving w = false → inProgress w = [])).
Proof.
  split.
  - intros self level content fmt w w'. unfold w'.
    rewrite log_streams, log_isArchiving.
    destruct (launches rev self level content fmt w) eqn:L; [right | by left].
    assert (isArchiving w = false) as E.
    { unfold launches in L. by destruct (isArchiving w). }
    rewrite E. repeat split. by eexists.
  - intros e f c m evs w.
    destruct (guarded_run rev evs _ (guarded_boot e f c m)) as (Hflag & Hlen & _).
    by split.
Qed.

(** C4, on the code: when the compression of a started compaction fails,
    nothing clears the flag.  In the run [failing_run] the flag stays
    set and no compaction runs, whatever happens [later]; a later call
    of [log] finds the two old files and starts nothing. *)
Theorem failed_compaction_wedges_archival later :
  let w := run Rev2022 failing_run (sample stale_fs) in
  let w' := run Rev2022 later w in
  (isArchiving w' = true ∧ inProgress w' = [] ∧ status <$> streams w' = [Failed]) ∧
  needArchive_of Rev2022 bot INFO (JString "again") [] w
    = ["2022-03-05.log"; "2022-03-06.log"] ∧
  streams (exec (log Rev2022 bot INFO (JString "again") []) w) = streams w.
Proof.
  intros w w'.
  assert (Hw : isArchiving w = true ∧ inProgress w = [] ∧ status <$> streams w = [Failed])
    by (vm_compute; done).
  assert (Hneed : needArchive_of Rev2022 bot INFO (JString "again") [] w
                  = ["2022-03-05.log"; "2022-03-06.log"])
    by (vm_compute; reflexivity).
  destruct Hw as (Ha & Hnone & Hst).
  destruct (wedged_run Rev2022 later w Ha Hnone) as [Ha' Hs'].
  fold w' in Ha', Hs'. clearbody w'. clearbody w.
  split; [|split].
  - unfold inProgress in *. by rewrite Hs'.
  - exact Hneed.
  - by apply log_control_archiving.
Qed.

(** C6, at a failing input: an instance created with every level set to
    [#FF0000] holds that colour, and its [INFO] line is still printed in
    the default colour of the level. *)
Theorem colour_override_has_no_effect :
  let w := run Rev2022 [CallGetLogger "bot" (Some all_red)] (sample ∅) in
  let w' := run Rev2022 [CallLog 0%nat INFO (JString "hi") []] w in
  let line := "I 2022-03-07T12:00:00.000Z [bot]: hi" +:+ LF in
  (∃ obj, heap w !! 0%nat = Some obj ∧ colors obj INFO = chalk_hex "#FF0000") ∧
  stdout w' = [paint (chalk_hex "#00AAAA") line] ∧
  stdout w' ≠ [paint (chalk_hex "#FF0000") line].
Proof.
  intros w w' line. split; [|split].
  - by eexists.
  - vm_compute. reflexivity.
  - vm_compute. discriminate.
Qed.

(** ** Concrete runs *)



(** A directory that cannot be created: the line is on the console, the
    call throws, nothing is appended. *)
Example refused_directory :
  let r := log_sys Rev2022 (refusing "EEXIST") bot INFO (JString "hello") []
             (start (sample ∅)) in
  r.1 = Throw (SystemError "EEXIST") ∧
  stripAnsi <$> stdout (world r.2) = ["I 2022-03-07T12:00:00.000Z [bot]: hello" +:+ LF] ∧
  appended (trace r.2) = [].
Proof. vm_compute. repeat split; reflexivity. Qed.

Lemma compaction_inputs_witness :
  let m := start (sample ∅) in
  let r := log_sys Rev2022 with_subdirectory bot INFO (JString "hello") [] m in
  returns (with_subdirectory 0%nat (fs_mkdirSync (dir bot))) ∧
  with_subdirectory 2%nat (fs_readdirSync (dir bot))
  = inr ["b.log"; "2022-03-07.log"; "2022-03-05.log"] ∧
  ∃ names, StronglySorted js_le names ∧
           (∀ f, f ∈ names ↔
                 f ∈ ["b.log"; "2022-03-07.log"; "2022-03-05.log"] ∧
                 endsWith f ".log" = true ∧ f ≠ "2022-03-07.log").
Proof.
  intros m r. split; [exact (ex_intro _ [] eq_refl)|]. split; [reflexivity|].
  destruct (@compaction_inputs nodeTTY Rev2022 with_subdirectory bot INFO (JString "hello") []
              m ["b.log"; "2022-03-07.log"; "2022-03-05.log"]
              (ex_intro _ [] eq_refl) (ex_intro _ [] eq_refl) eq_refl)
    as (names & Hmem & _ & Hsorted & _).
  exists names. split; [exact Hsorted | exact Hmem].
Defined.

(** A subdirectory whose name ends in [.log] is handed to the compaction. *)
Example subdirectory_is_archived :
  let r := log_sys Rev2022 with_subdirectory bot INFO (JString "hello") []
             (start (sample ∅)) in
  inputs <$> streams (world r.2)
  = [[path_join logs "2022-03-05.log"; path_join logs "b.log"]].
Proof. vm_compute. reflexivity. Qed.

(** C3, as stated, fails across calls: the file a call of [log] has just
    appended to can be an input of a compaction in progress.  The
    directory holds a file named for the next day when the first call
    starts the compaction; the second call, after midnight, appends to
    that very file. *)
Lemma today_can_be_an_input :
  ¬ today_excluded Rev2022 bot INFO (JString "two") []
      (run Rev2022 overlap_run (boot ∅ ahead_fs over_midnight RequireThrows)).
Proof.
  unfold today_excluded. intros Hex.
  apply (Hex (compaction_of bot ["2022-03-08.log"])).
  - vm_compute. left.
  - vm_compute. left.
Qed.

(** When that compaction ends, the listener removes the file, and the
    line of the second call with it. *)
Example appended_line_is_lost :
  let w := run Rev2022 (overlap_run ++ [CallInfo 0%nat (JString "two") []; SzEnd 0%nat])
             (boot ∅ ahead_fs over_midnight RequireThrows) in
  stripAnsi <$> stdout w
  = ["I 2022-03-07T12:00:00.000Z [bot]: one" +:+ LF;
     "I 2022-03-08T12:00:00.000Z [bot]: two" +:+ LF;
     "I 2022-03-08T12:00:00.000Z [bot]: [Logger] Archived 1 log file(s): 2022-03-08.log"
       +:+ LF] ∧
  read_file (fs w) (path_join logs "2022-03-08.log")
  = Some ("I 2022-03-08T12:00:00.000Z [bot]: [Logger] Archived 1 log file(s): 2022-03-08.log"
            +:+ LF).
Proof. vm_compute. split; reflexivity. Qed.

Lemma getDefault_fallback_witness :
  let w := boot ∅ ∅ (fun _ => today) (PackageJson (Some "")) in
  (manifest w = RequireThrows ∨ manifest w = PackageJson (Some "")) ∧
  getDefault Rev2022 w = getLogger Rev2022 "default" None w.
Proof.
  intros w. split; [right; reflexivity|].
  apply (@getDefault_fallback nodeTTY Rev2022 w). right. reflexivity.
Defined.

Lemma getenv_cases_witness :
  let w := boot {[ "PORT" := "8080"; "HOST" := "localhost" ]} ∅ (fun _ => today) RequireThrows in
  (env w !! "TOKEN" = None ∧ getenv "TOKEN" false false w = (Return Null, w)) ∧
  (env w !! "PORT" = Some "8080" ∧
   getenv "PORT" true true w = (Return (Num (Some 8080)), w)) ∧
  (env w !! "HOST" = Some "localhost" ∧
   getenv "HOST" true false w = (Return Null, w)).
Proof.
  intros w. split; [|split].
  - split; [reflexivity|].
    apply (proj1 (@getenv_cases nodeTTY "TOKEN" w) eq_refl false).
  - split; [reflexivity|].
    apply (proj1 (proj2 (proj2 (@getenv_cases nodeTTY "PORT" w) "8080" eq_refl)) eq_refl true).
  - split; [reflexivity|].
    apply (proj2 (proj2 (proj2 (@getenv_cases nodeTTY "HOST" w) "localhost" eq_refl)) eq_refl).
Defined.


(** The tests of [getenv.test.ts] that need no fractions. *)
Example getenv_raw_strings :
  let w := boot {[ "TEST_1" := "foo" ]} ∅ (fun _ => today) RequireThrows in
  (getenv "TEST_1" false false w).1 = Return (Str "foo") ∧
  (getenv "TEST_1" true false w).1 = Return Null ∧
  (∃ e, (getenv "TEST_1" true true w).1 = Throw e).
Proof. repeat split. by eexists. Qed.

Example getenv_unset :
  let w := boot ∅ ∅ (fun _ => today) RequireThrows in
  (getenv "TEST_2" false false w).1 = Return Null ∧
  (getenv "TEST_2" true false w).1 = Return Null ∧
  (∃ e, (getenv "TEST_2" true true w).1 = Throw e) ∧
  (∃ e, (getenv "TEST_2" false true w).1 = Throw e).
Proof. repeat split; by eexists. Qed.

Example getenv_integers :
  let w := boot {[ "TEST_4" := "-123" ]} ∅ (fun _ => today) RequireThrows in
  (getenv "TEST_4" false false w).1 = Return (Str "-123") ∧
  (getenv "TEST_4" true false w).1 = Return (Num (Some (-123))) ∧
  (getenv "TEST_4" true true w).1 = Return (Num (Some (-123))).
Proof. repeat split. Qed.

(** The end-to-end scenarios of the specification. *)
Example first_line_of_the_day :
  let w := run Rev2021 [CallGetDefault; CallInfo 0%nat (JString "hello") [JString "world"]]
             (sample ∅) in
  stripAnsi <$> stdout w = ["I 2022-03-07T12:00:00.000Z: hello world" +:+ LF] ∧
  map_to_list <$> fs w !! logs
    = Some [("2022-03-07.log", "I 2022-03-07T12:00:00.000Z: hello world" +:+ LF)] ∧
  streams w = [] ∧ isArchiving w = false.
Proof. vm_compute. repeat split; reflexivity. Qed.

Example old_files_are_archived :
  let w := run Rev2021 [CallGetDefault; CallInfo 0%nat (JString "hello") []]
             (sample stale_fs) in
  let w' := run Rev2021 [SzEnd 0%nat] w in
  (inputs <$> streams w
     = [[path_join logs "2022-03-05.log"; path_join logs "2022-03-06.log"]] ∧
   isArchiving w = true) ∧
  ((map_to_list <$> fs w' !! logs) ≫= (fun es => Some (es.*1))
     = Some ["archive.7z"; "notes.txt"; "2022-03-07.log"] ∧
   status <$> streams w' = [Ended] ∧ isArchiving w' = false).
Proof. vm_compute. repeat split; reflexivity. Qed.

(** * Further properties *)

(** ** Worlds, deletion loops, suffixes *)

Lemma world_eq (w w' : World) :
  env w = env w' → stdout w = stdout w' → fs w = fs w' → clock w = clock w' →
  ticks w = ticks w' → manifest w = manifest w' → isArchiving w = isArchiving w' →
  heap w = heap w' → loggers w = loggers w' → streams w = streams w' → w = w'.
Proof. destruct w, w'. simpl. by intros -> -> -> -> -> -> -> -> -> ->. Qed.

(** On the flat disk, [log_sys] is [log]: the same outcome, the same
    state of the process, and one append, of the line [log] writes. *)
Lemma log_sys_on_flat_disk `{Host} rev self level content fmt w tr :
  let r := log_sys rev (flat_disk rev self level content fmt w) self level content fmt
             {| world := w; trace := tr |} in
  let w' := exec (log rev self level content fmt) w in
  r.1 = (log rev self level content fmt w).1 ∧
  set_fs (fun _ => fs w') (world r.2) = w' ∧
  ∃ new, trace r.2 = tr ++ new ∧
         appended new = [(path_join (dir self) (filename_of w),
                          line_of rev self level content fmt w)] ∧
         removed new = [].
Proof.
  intros r w'. unfold r, w', exec.
  rewrite log_sys_unfold, log_unfold. cbv zeta. unfold flat_disk. cbn [world trace fst snd].
  split; [done|]. split.
  - unfold launches, needArchive_of, launched, written, stream_of, needArchive_of,
      compaction_of, printed.
    destruct (negb (isArchiving w) && _); by apply world_eq.
  - eexists. split; [reflexivity|]. done.
Qed.

Lemma substring_all (t : string) : String.substring 0 (String.length t) t = t.
Proof. induction t as [|b t IH]; simpl; [done | by rewrite IH]. Qed.

Lemma substring_append_r (s t : string) :
  String.substring (String.length s) (String.length t) (s +:+ t) = t.
Proof.
  induction s as [|a s IH]; [apply substring_all|].
  rewrite append_cons. simpl. apply IH.
Qed.

Lemma endsWith_append (s t : string) : endsWith (s +:+ t) t = true.
Proof.
  unfold endsWith. rewrite length_append, decide_True by lia.
  apply bool_decide_eq_true.
  replace (String.length s + String.length t - String.length t)%nat
    with (String.length s) by lia.
  apply substring_append_r.
Qed.

(** The loop only changes the file system. *)
Lemma rm_loop_only_fs d (names : list string) w :
  ∃ f', exec (for_of names (fun file => rmSync (path_join d file))) w
        = set_fs (fun _ => f') w.
Proof.
  revert w. induction names as [|x names IH]; intros w.
  - exists (fs w). by apply world_eq.
  - simpl. rewrite exec_bind. unfold rmSync at 1. simpl.
    destruct (fs w !! d) as [es|]; [|exists (fs w); by apply world_eq].
    destruct (es !! x); [|exists (fs w); by apply world_eq].
    destruct (IH (set_fs (fun f => <[d := delete x es]> f) w)) as [f' E].
    exists f'. rewrite E. by apply world_eq.
Qed.

(** With every file present and no name twice, the loop deletes them
    all and returns. *)
Lemma rm_loop_ok d (names : list string) w es :
  fs w !! d = Some es → NoDup names → (∀ n, n ∈ names → is_Some (es !! n)) →
  ∃ es', for_of names (fun file => rmSync (path_join d file)) w
         = (Return tt, set_fs (fun f => <[d := es']> f) w) ∧
         ∀ k, es' !! k = if decide (k ∈ names) then None else es !! k.
Proof.
  revert w es. induction names as [|x names IH]; intros w es Ed Hnd Hall.
  - exists es. split.
    + simpl. unfold ret. f_equal. apply world_eq; try done. simpl. by rewrite insert_id.
    + intros k. by rewrite decide_False by set_solver.
  - apply NoDup_cons in Hnd as [Hx Hnd].
    destruct (Hall x ltac:(set_solver)) as [v Hv].
    destruct (IH (set_fs (fun f => <[d := delete x es]> f) w) (delete x es))
      as (es' & Hrun & Hes'); [apply lookup_insert_eq | done | |].
    { intros n Hn. rewrite lookup_delete_ne by set_solver. apply Hall. set_solver. }
    exists es'. split.
    + simpl. unfold bind at 1. unfold rmSync at 1. simpl. rewrite Ed, Hv, Hrun.
      f_equal. apply world_eq; try done. simpl. apply insert_insert_eq.
    + intros k. rewrite Hes'. destruct (decide (k = x)) as [->|Hk].
      * rewrite lookup_delete_eq. rewrite (decide_True (P := x ∈ x :: names)) by constructor.
        by case_decide.
      * rewrite lookup_delete_ne by done.
        destruct (decide (k ∈ names)).
        -- by rewrite decide_True by (by constructor).
        -- rewrite decide_False; [done|]. by intros [?|?]%elem_of_cons.
Qed.

(** A missing file stops the loop with an exception. *)
Lemma rm_loop_missing d (names : list string) w n :
  n ∈ names → read_file (fs w) (path_join d n) = None →
  ∃ e, (for_of names (fun file => rmSync (path_join d file)) w).1 = Throw e.
Proof.
  revert w. induction names as [|x names IH]; intros w Hn Hmiss; [set_solver|].
  simpl. unfold bind at 1. unfold rmSync at 1. simpl.
  unfold read_file in Hmiss. simpl in Hmiss.
  destruct (fs w !! d) as [es|] eqn:Ed; [|by eexists]. simpl in Hmiss.
  destruct (es !! x) eqn:Ex; [|by eexists].
  apply IH.
  - apply elem_of_cons in Hn as [->|Hn]; [congruence | done].
  - unfold read_file. simpl. rewrite lookup_insert_eq. simpl.
    destruct (decide (n = x)) as [->|Hne]; [apply lookup_delete_eq|].
    by rewrite lookup_delete_ne.
Qed.

(** ** The shape of every step *)

Section Steps.
Context `{Host}.
Variable rev : Revision.

Lemma elem_of_needArchive_of self level content fmt w n :
  n ∈ needArchive_of rev self level content fmt w ↔
  is_Some (entries_after rev self level content fmt w !! n) ∧
  endsWith n ".log" = true ∧ n ≠ filename_of w.
Proof.
  unfold needArchive_of. rewrite elem_of_archivable, elem_of_sort, list_elem_of_fmap.
  split.
  - intros [([k v] & -> & Hkv%elem_of_map_to_list) ?]. split; [by eexists | done].
  - intros [[v Hv] ?]. split; [|done]. exists (n, v). split; [done|].
    by apply elem_of_map_to_list.
Qed.

Lemma NoDup_needArchive_of self level content fmt w :
  NoDup (needArchive_of rev self level content fmt w).
Proof. apply NoDup_filter, NoDup_sort, NoDup_fst_map_to_list. Qed.

(** The listener either stops in the deletion loop, or deletes, logs
    the notice and clears the flag. *)
Lemma on_archive_end_shape l w :
  ∃ f',
    ((∃ e, (on_archive_end rev l w).1 = Throw e) ∧
     exec (on_archive_end rev l) w = set_fs (fun _ => f') w) ∨
    ((on_archive_end rev l w).1 = Return tt ∧
     exec (on_archive_end rev l) w
     = set_isArchiving false
         (exec (log rev (this l) INFO (JString (archive_notice (needArchive l))) [])
               (set_fs (fun _ => f') w))).
Proof.
  destruct (rm_loop_only_fs (dir (this l)) (needArchive l) w) as [f' Hloop].
  exists f'. unfold exec in Hloop.
  assert (Hrun : on_archive_end rev l w
    = match for_of (needArchive l) (fun file => rmSync (path_join (dir (this l)) file)) w with
      | (Return _, w1) =>
          (Return tt,
           set_isArchiving false
             (exec (log rev (this l) INFO (JString (archive_notice (needArchive l))) []) w1))
      | (Throw e, w1) => (Throw e, w1)
      end).
  { unfold on_archive_end, bind. fold (archive_notice (needArchive l)).
    destruct (for_of _ _ w) as [[[]|e] w1]; [|done].
    unfold exec. by rewrite log_unfold. }
  destruct (for_of _ _ w) as [[[]|e] w1]; simpl in Hloop; subst w1.
  - right. unfold exec at 1. by rewrite Hrun.
  - left. unfold exec. rewrite Hrun. split; [by eexists | done].
Qed.

Lemma log_quiet_fields self level content fmt w :
  env (exec (log rev self level content fmt) w) = env w ∧
  manifest (exec (log rev self level content fmt) w) = manifest w ∧
  clock (exec (log rev self level content fmt) w) = clock w.
Proof. unfold exec. rewrite log_unfold. simpl. by destruct launches. Qed.

Lemma on_archive_end_quiet_fields l w :
  env (exec (on_archive_end rev l) w) = env w ∧
  manifest (exec (on_archive_end rev l) w) = manifest w ∧
  clock (exec (on_archive_end rev l) w) = clock w.
Proof.
  destruct (on_archive_end_shape l w) as [f' [[_ ->]|[_ ->]]]; [done|].
  simpl. apply (log_quiet_fields _ _ _ _ (set_fs (fun _ => f') w)).
Qed.

Lemma listeners_quiet_fields (ls : list EndListener) w :
  env (exec (for_of ls (on_archive_end rev)) w) = env w ∧
  manifest (exec (for_of ls (on_archive_end rev)) w) = manifest w ∧
  clock (exec (for_of ls (on_archive_end rev)) w) = clock w.
Proof.
  revert w. induction ls as [|l ls IH]; intros w; [done|].
  simpl. rewrite exec_bind.
  pose proof (on_archive_end_quiet_fields l w) as (He & Hm & Hc). unfold exec in He, Hm, Hc.
  destruct (on_archive_end rev l w) as [[[]|e] w1]; simpl in He, Hm, Hc; [|done].
  destruct (IH w1) as (-> & -> & ->). done.
Qed.

(** Every event is quiet, a call of [log], or the end or the failure of
    a child. *)
Lemma step_kinds w ev :
  quiet w (step rev w ev) ∨
  (∃ self level content fmt, step rev w ev = exec (log rev self level content fmt) w) ∨
  (∃ i, step rev w ev = exec (sz_end rev i) w) ∨
  (∃ i, step rev w ev = exec (sz_error i) w).
Proof.
  assert (Hcall : ∀ r level content fmt,
    quiet w (exec (call r (fun self => log rev self level content fmt)) w) ∨
    ∃ self l c f,
      exec (call r (fun self => log rev self level content fmt)) w
      = exec (log rev self l c f) w).
  { intros r level content fmt. unfold call, exec.
    destruct (heap w !! r) as [self|]; [right | left; by repeat split].
    by exists self, level, content, fmt. }
  destruct ev as [ns o| |r level content fmt|r content fmt|r content fmt
                  |r content fmt|r content fmt|name number assert|name value|i|i];
    unfold step; simpl.
  - left. rewrite exec_then_ret. unfold exec, getLogger.
    by destruct (loggers w !! ns).
  - left. destruct (getDefault_getLogger rev w) as [ns E].
    rewrite exec_then_ret. unfold exec. rewrite E. unfold getLogger.
    by destruct (loggers w !! ns).
  - destruct (Hcall r level content fmt) as [?|?]; [by left | right; by left].
  - destruct (Hcall r VERBOSE (JString (normalize content)) fmt) as [?|?];
      [by left | right; by left].
  - destruct (Hcall r INFO (JString (normalize content)) fmt) as [?|?];
      [by left | right; by left].
  - destruct (Hcall r WARNING (JString (normalize content)) fmt) as [?|?];
      [by left | right; by left].
  - destruct (Hcall r ERROR (JString (normalize content)) fmt) as [?|?];
      [by left | right; by left].
  - left. rewrite exec_then_ret. unfold exec, getenv.
    destruct (env w !! name); [|by destruct assert].
    destruct number; [|done].
    destruct (isNaN _); [by destruct assert | done].
  - left. unfold exec, process_env_set. destruct (_ && _); by repeat split.
  - right; right; left. by exists i.
  - right; right; right. by exists i.
Qed.

Lemma step_manifest w ev : manifest (step rev w ev) = manifest w.
Proof.
  destruct (step_kinds w ev)
    as [(_&_&_&_&_&Hm&_)|[(self&level&content&fmt& ->)|[(i& ->)|(i& ->)]]]; [done| | |].
  - apply log_quiet_fields.
  - unfold exec, sz_end. destruct (streams w !! i) as [s|]; [|done].
    destruct (isRunning s); [|done].
    apply (listeners_quiet_fields (on_end s)
             (set_fs (sz_write s) (set_streams (alter (set_status Ended) i) w))).
  - unfold exec, sz_error. destruct (streams w !! i) as [s|]; [|done].
    by destruct (isRunning s).
Qed.

Lemma run_manifest evs w : manifest (run rev evs w) = manifest w.
Proof.
  revert w. induction evs as [|ev evs IH]; intros w; [done|].
  simpl. by rewrite IH, step_manifest.
Qed.

End Steps.

(** ** The archiver invariant holds in every run *)

Section ArchiverInvariant.
Context `{Host}.
Variable rev : Revision.

Lemma stream_wf_set_status st s : stream_wf s → stream_wf (set_status st s).
Proof. intros (l & ?). by exists l. Qed.

Lemma stream_wf_alter st i (ss : list Stream) :
  Forall stream_wf ss → Forall stream_wf (alter (set_status st) i ss).
Proof.
  intros Hall. apply Forall_alter; [done|]. intros s _. apply stream_wf_set_status.
Qed.

Lemma stream_wf_stream_of self level content fmt w :
  stream_wf (stream_of rev self level content fmt w).
Proof.
  exists {| this := self; needArchive := needArchive_of rev self level content fmt w |}.
  repeat split; simpl.
  - apply Forall_forall. by intros n (_ & ? & _)%elem_of_needArchive_of.
  - apply NoDup_needArchive_of.
Qed.

Lemma running_after_stop i s st w :
  guarded w → streams w !! i = Some s → isRunning s = true → st ≠ Running →
  running (alter (set_status st) i (streams w)) = [].
Proof.
  intros (_ & Hlen & _) Hi R Hst. unfold inProgress in Hlen.
  pose proof (running_alter_stop (streams w) i s st Hi R Hst).
  apply length_zero_iff_nil. lia.
Qed.

Lemma running_flag i s w :
  guarded w → streams w !! i = Some s → isRunning s = true → isArchiving w = true.
Proof.
  intros (Hflag & _) Hi R. destruct (isArchiving w) eqn:E; [done|].
  by rewrite (none_running _ _ _ (Hflag eq_refl) Hi) in R.
Qed.

Lemma sz_end_idle i w :
  (∀ s, streams w !! i = Some s → isRunning s = false) → exec (sz_end rev i) w = w.
Proof.
  intros Hidle. unfold exec, sz_end.
  destruct (streams w !! i) as [s|] eqn:Hi; [|done]. by rewrite (Hidle s).
Qed.

Lemma sz_error_unfold i s w :
  streams w !! i = Some s → isRunning s = true →
  exec (sz_error i) w = set_streams (alter (set_status Failed) i) w.
Proof. intros Hi R. unfold exec, sz_error. by rewrite Hi, R. Qed.

Lemma sz_error_idle i w :
  (∀ s, streams w !! i = Some s → isRunning s = false) → exec (sz_error i) w = w.
Proof.
  intros Hidle. unfold exec, sz_error.
  destruct (streams w !! i) as [s|] eqn:Hi; [|done]. by rewrite (Hidle s).
Qed.

(** The end of the running compaction of a well-formed process, written
    out: the archive is written, the inputs are deleted, the notice is
    logged and the flag is cleared. *)
Lemma sz_end_unfold i s w :
  archiver_ok w → streams w !! i = Some s → isRunning s = true →
  ∃ l es',
    on_end s = [l] ∧
    archive s = path_join (dir (this l)) "archive.7z" ∧
    Forall (fun n => endsWith n ".log" = true) (needArchive l) ∧
    (∀ k, es' !! k = if decide (k ∈ needArchive l) then None
                     else if decide (k = "archive.7z") then
                       Some (sevenZip (read_file (fs w) (archive s))
                               (omap (fun p => pair p <$> read_file (fs w) p) (inputs s)))
                     else default ∅ (fs w !! dir (this l)) !! k) ∧
    exec (sz_end rev i) w
    = set_isArchiving false
        (written rev (this l) INFO (JString (archive_notice (needArchive l))) []
           (set_fs (fun f => <[dir (this l) := es']> f)
              (set_streams (alter (set_status Ended) i) w))).
Proof.
  intros (Hg & Hwf & Hpend) Hi R.
  assert (Hin : s ∈ streams w) by (by eapply list_elem_of_lookup_2).
  pose proof (proj1 (Forall_forall _ _) Hwf s Hin) as (l & Hl & Harch & _ & _ & Hlog & Hnd).
  set (d := dir (this l)).
  set (data := sevenZip (read_file (fs w) (archive s))
                 (omap (fun p => pair p <$> read_file (fs w) p) (inputs s))).
  set (es0 := <["archive.7z" := data]> (default ∅ (fs w !! d))).
  set (w0 := set_fs (sz_write s) (set_streams (alter (set_status Ended) i) w)).
  assert (Hfs0 : fs w0 = <[d := es0]> (fs w)).
  { unfold w0, sz_write, es0, data, d. simpl. by rewrite Harch. }
  assert (Hall : ∀ n, n ∈ needArchive l → is_Some (es0 !! n)).
  { intros n Hn. specialize (Hpend s l n Hin R). rewrite Hl in Hpend.
    specialize (Hpend ltac:(by constructor) Hn). unfold read_file in Hpend. simpl in Hpend.
    fold d in Hpend. unfold es0. destruct (fs w !! d) as [es|]; simpl in *; [|by destruct Hpend].
    destruct (decide (n = "archive.7z")) as [->|Hne].
    - rewrite lookup_insert_eq. by eexists.
    - by rewrite lookup_insert_ne. }
  destruct (rm_loop_ok d (needArchive l) w0 es0) as (es' & Hloop & Hes'); [|done|done|].
  { rewrite Hfs0. apply lookup_insert_eq. }
  exists l, es'. split; [done|]. split; [done|]. split; [done|]. split.
  { intros k. rewrite Hes'. case_decide; [done|]. unfold es0.
    case_decide as Hk; [subst k; apply lookup_insert_eq | by rewrite lookup_insert_ne]. }
  assert (Hflag : isArchiving w = true) by (by eapply running_flag).
  unfold exec, sz_end. rewrite Hi, R, Hl. fold w0.
  change (for_of [l] (on_archive_end rev) w0) with ((on_archive_end rev l >> ret tt) w0).
  change ((?m w0).2) with (exec m w0). rewrite exec_then_ret.
  unfold on_archive_end. rewrite exec_bind. fold d. rewrite Hloop.
  rewrite exec_bind. fold (archive_notice (needArchive l)). rewrite log_unfold.
  rewrite launches_archiving by done.
  assert (Hw1 : set_fs (fun f => <[d := es']> f) w0
                = set_fs (fun f => <[d := es']> f)
                    (set_streams (alter (set_status Ended) i) w)).
  { apply world_eq; try done. simpl. change (sz_write s (fs w)) with (fs w0).
    rewrite Hfs0. apply insert_insert_eq. }
  rewrite Hw1. reflexivity.
Qed.

Lemma log_keeps_files self level content fmt w p :
  is_Some (read_file (fs w) p) →
  is_Some (read_file (fs (exec (log rev self level content fmt) w)) p).
Proof. intros Hp. rewrite log_read_file. by case_decide. Qed.

Lemma archiver_ok_step w ev : archiver_ok w → archiver_ok (step rev w ev).
Proof.
  intros Hok. pose proof Hok as (Hg & Hwf & Hpend).
  split; [by apply guarded_step|].
  destruct (step_kinds rev w ev)
    as [(Hfs&_&_&_&Hs&_)|[(self&level&content&fmt& ->)|[(i& ->)|(i& ->)]]].
  - unfold pending_ok. by rewrite Hfs, Hs.
  - split.
    + rewrite log_streams. destruct launches; [|done].
      apply Forall_app. split; [done|]. repeat constructor. apply stream_wf_stream_of.
    + intros s l n Hs R Hl Hn. rewrite log_streams in Hs.
      assert (s ∈ streams w ∨ s = stream_of rev self level content fmt w) as [Hold| ->].
      { destruct launches; [|by left].
        apply elem_of_app in Hs as [?|?%list_elem_of_singleton]; auto. }
      * by eapply log_keeps_files, Hpend.
      * simpl in Hl. apply list_elem_of_singleton in Hl as ->. simpl in *.
        apply elem_of_needArchive_of in Hn as [Hn _].
        rewrite log_fs. unfold read_file. simpl. by rewrite lookup_insert_eq.
  - destruct (streams w !! i) as [s|] eqn:Hi.
    2:{ rewrite sz_end_idle; [by split | intros s0 ?; congruence]. }
    destruct (isRunning s) eqn:R.
    2:{ rewrite sz_end_idle; [by split | intros s0 ?; congruence]. }
    destruct (sz_end_unfold i s w Hok Hi R) as (l & es' & _ & _ & _ & _ & ->).
    simpl. pose proof (running_after_stop i s Ended w Hg Hi R ltac:(done)) as Hnone.
    split; [by apply stream_wf_alter|].
    intros s' l' n Hs' R'. exfalso.
    assert (s' ∈ running (alter (set_status Ended) i (streams w))) as Hin.
    { apply list_elem_of_filter. by split. }
    rewrite Hnone in Hin. by apply not_elem_of_nil in Hin.
  - destruct (streams w !! i) as [s|] eqn:Hi.
    2:{ rewrite sz_error_idle; [by split | intros s0 ?; congruence]. }
    destruct (isRunning s) eqn:R.
    2:{ rewrite sz_error_idle; [by split | intros s0 ?; congruence]. }
    rewrite (sz_error_unfold i s w Hi R). simpl.
    pose proof (running_after_stop i s Failed w Hg Hi R ltac:(done)) as Hnone.
    split; [by apply stream_wf_alter|].
    intros s' l' n Hs' R'. exfalso.
    assert (s' ∈ running (alter (set_status Failed) i (streams w))) as Hin.
    { apply list_elem_of_filter. by split. }
    rewrite Hnone in Hin. by apply not_elem_of_nil in Hin.
Qed.

Lemma archiver_ok_run evs w : archiver_ok w → archiver_ok (run rev evs w).
Proof.
  revert w. induction evs as [|ev evs IH]; intros w Hok; [done|].
  simpl. apply IH, archiver_ok_step, Hok.
Qed.

Lemma archiver_ok_boot e f c m : archiver_ok (boot e f c m).
Proof.
  split; [apply guarded_boot|]. split; [constructor|].
  intros s l n Hs. by apply not_elem_of_nil in Hs.
Qed.

End ArchiverInvariant.

(** ** The registry *)

Section RegistryFacts.
Context `{Host}.
Variable rev : Revision.

Lemma getLogger_wf ns o w : registry_wf w → registry_wf (exec (getLogger rev ns o) w).
Proof.
  intros [Hname Hobj]. unfold exec, getLogger.
  destruct (loggers w !! ns) as [r|] eqn:E; [done|]. split; simpl.
  - intros ns' r. destruct (decide (ns = ns')) as [<-|N].
    + rewrite lookup_insert_eq. intros [= <-]. exists (newLogger rev ns o).
      by rewrite lookup_app_r, Nat.sub_diag by lia.
    + rewrite lookup_insert_ne by done. intros (obj & Hr & Hn)%Hname.
      exists obj. split; [by apply lookup_app_l_Some | done].
  - intros r obj Hr. apply lookup_app_Some in Hr as [Hr|[Hlen Hr]].
    + pose proof (Hobj _ _ Hr) as Hreg.
      rewrite lookup_insert_ne; [done | congruence].
    + apply list_lookup_singleton_Some in Hr as [Hr <-]. simpl.
      rewrite lookup_insert_eq. f_equal. lia.
Qed.

Lemma registry_wf_step w ev : registry_wf w → registry_wf (step rev w ev).
Proof.
  intros Hwf.
  destruct (step_cases rev w ev)
    as [(_&_&Eh&El)|[(self&level&content&fmt& ->)|[(ns&o& ->)|[(i& ->)|(i& ->)]]]].
  - unfold registry_wf. by rewrite Eh, El.
  - destruct (log_registry rev self level content fmt w) as [Eh El].
    unfold registry_wf. by rewrite Eh, El.
  - by apply getLogger_wf.
  - destruct (sz_end_registry rev i w) as [Eh El]. unfold registry_wf. by rewrite Eh, El.
  - destruct (sz_error_control i w) as (_ & Eh & El). unfold registry_wf. by rewrite Eh, El.
Qed.

Lemma registry_wf_run evs w : registry_wf w → registry_wf (run rev evs w).
Proof.
  revert w. induction evs as [|ev evs IH]; intros w Hwf; [done|].
  simpl. apply IH, registry_wf_step, Hwf.
Qed.

Lemma registry_wf_boot e f c m : registry_wf (boot e f c m).
Proof. split; simpl; [intros ns r | intros r obj]; by rewrite ?lookup_empty. Qed.

Lemma getDefault_unfold w :
  getDefault rev w = getLogger rev (default_namespace (manifest w)) None w.
Proof.
  unfold getDefault, bind, try_catch, appRoot_require_name, default_namespace.
  by destruct (manifest w) as [|[n|]].
Qed.

Lemma default_namespace_nonempty m : default_namespace m ≠ "".
Proof. destruct m as [|[n|]]; simpl; [done| |done]. by case_decide. Qed.

Lemma getLogger_registered ns o w :
  ∃ r, (getLogger rev ns o w).1 = Return r ∧
       loggers (getLogger rev ns o w).2 !! ns = Some r.
Proof.
  unfold getLogger. destruct (loggers w !! ns) as [r|] eqn:E; simpl.
  - by exists r.
  - exists (length (heap w)). by rewrite lookup_insert_eq.
Qed.

End RegistryFacts.

(** X1: in every run of the process there is exactly one Logger per
    namespace: a registered namespace leads to an object that carries
    it, every Logger object is registered under its own namespace, and
    two namespaces never share an object. *)
Theorem one_logger_per_namespace `{Host} rev e f c m evs :
  let w := run rev evs (boot e f c m) in
  (∀ ns r, loggers w !! ns = Some r →
     ∃ obj, heap w !! r = Some obj ∧ namespace obj = ns) ∧
  (∀ r obj, heap w !! r = Some obj → loggers w !! namespace obj = Some r) ∧
  (∀ ns1 ns2 r, loggers w !! ns1 = Some r → loggers w !! ns2 = Some r → ns1 = ns2).
Proof.
  intros w.
  destruct (registry_wf_run rev evs _ (registry_wf_boot e f c m)) as [Hname Hobj].
  fold w in Hname, Hobj. split; [done|]. split; [done|].
  intros ns1 ns2 r (o1 & Ho1 & <-)%Hname (o2 & Ho2 & <-)%Hname. congruence.
Qed.

(** X2: [getLogger] on a namespace not yet registered allocates one
    object, registers it and returns its reference.  The object carries
    the namespace; its directory is the [logDir] of the options when
    that is a non-empty string and [<appRoot>/logs] otherwise, an empty
    [logDir] counting as absent; it is never empty. *)
Theorem getLogger_creates `{Host} rev ns o w :
  loggers w !! ns = None →
  ∃ obj,
    getLogger rev ns o w
    = (Return (length (heap w)),
       set_registry (heap w ++ [obj]) (<[ns := length (heap w)]> (loggers w)) w) ∧
    namespace obj = ns ∧
    dir obj ≠ "" ∧
    (∀ d, o ≫= opt_logDir = Some d → d ≠ "" → dir obj = d) ∧
    (o ≫= opt_logDir = None ∨ o ≫= opt_logDir = Some "" →
     dir obj = appRoot_path +:+ "/logs").
Proof.
  intros Hfresh. exists (newLogger rev ns o).
  split; [unfold getLogger; by rewrite Hfresh|]. split; [done|].
  assert (Hdflt : appRoot_path +:+ "/logs" ≠ "").
  { intros E. apply (f_equal String.length) in E. rewrite length_append in E.
    simpl in E. lia. }
  simpl. unfold path_text. simpl. destruct (o ≫= opt_logDir) as [d|].
  - case_decide as Hd.
    + subst d. split; [done|]. split; [by intros d [= <-] | done].
    + split; [done|]. split; [by intros d' [= <-] | by intros [?|[= ?]]].
  - split; [done|]. by split.
Qed.

Lemma getLogger_creates_witness :
  let w := sample ∅ in
  let o := {| opt_colors := None; opt_colorsHSL := None; opt_logDir := Some "" |} in
  loggers w !! "bot" = None ∧
  ∃ obj, (getLogger Rev2022 "bot" (Some o) w).1 = Return 0%nat ∧
         dir obj = "/srv/remoji/logs".
Proof.
  intros w o. split; [reflexivity|].
  destruct (@getLogger_creates nodeTTY Rev2022 "bot" (Some o) w eq_refl)
    as (obj & Hrun & _ & _ & _ & Hdir).
  exists obj. split; [by rewrite Hrun | apply Hdir; by right].
Defined.

(** X3: in every run of a process whose manifest, if it can be read,
    has a name that is a string or has none, [getDefault] returns
    normally a Logger whose namespace is that name when it is a
    non-empty string, and ["default"] when the manifest cannot be read,
    has no name or has the empty name; the namespace is never empty. *)
Theorem getDefault_namespace `{Host} rev e f c m evs :
  let w := run rev evs (boot e f c m) in
  ∃ r obj,
    (getDefault rev w).1 = Return r ∧
    heap (getDefault rev w).2 !! r = Some obj ∧
    namespace obj ≠ "" ∧
    namespace obj
    = match m with
      | PackageJson (Some n) => if decide (n = "") then "default" else n
      | _ => "default"
      end.
Proof.
  intros w. rewrite getDefault_unfold.
  assert (Hm : manifest w = m) by apply run_manifest.
  assert (Hwf : registry_wf w) by apply registry_wf_run, registry_wf_boot.
  destruct (getLogger_registered rev (default_namespace (manifest w)) None w)
    as (r & Hr & Hreg).
  pose proof (getLogger_wf rev (default_namespace (manifest w)) None w Hwf) as [Hname _].
  destruct (Hname _ _ Hreg) as (obj & Hobj & Hns).
  exists r, obj. split; [done|]. split; [done|]. rewrite Hns. split.
  - apply default_namespace_nonempty.
  - by rewrite Hm.
Qed.

(** X4: the default Logger is the same object for the whole life of the
    process: after a call of [getDefault], whatever happens next, a
    further call returns the same reference and changes nothing. *)
Theorem getDefault_stable `{Host} rev e f c m before between :
  let w := run rev before (boot e f c m) in
  let first := getDefault rev w in
  let w2 := run rev between first.2 in
  ∃ r, first.1 = Return r ∧ getDefault rev w2 = (Return r, w2).
Proof.
  intros w first w2. subst first w2.
  assert (Hok : registry_ok w) by apply run_registry, registry_boot.
  rewrite (getDefault_unfold rev w).
  set (ns := default_namespace (manifest w)).
  destruct (getLogger_registered rev ns None w) as (r & Hr & Hreg).
  destruct (getLogger_registry rev ns None w Hok) as [Hok1 _].
  assert (Hm : manifest (getLogger rev ns None w).2 = manifest w).
  { unfold getLogger. by destruct (loggers w !! ns). }
  change (exec (getLogger rev ns None) w) with (getLogger rev ns None w).2 in Hok1.
  destruct (run_registry rev between _ Hok1) as [_ [_ Hkeep]].
  exists r. split; [done|].
  rewrite getDefault_unfold, run_manifest, Hm. fold ns.
  unfold getLogger at 1. by rewrite (Hkeep _ _ Hreg).
Qed.

(** ** What [log] leaves alone *)

Lemma written_read_file `{Host} rev self level content fmt w p :
  read_file (fs (written rev self level content fmt w)) p
  = if decide (p = path_join (dir self) (filename_of w))
    then Some (default "" (read_file (fs w) p) +:+ line_of rev self level content fmt w)
    else read_file (fs w) p.
Proof.
  change (fs (written rev self level content fmt w))
    with (<[dir self := entries_after rev self level content fmt w]> (fs w)).
  rewrite <- (log_fs rev). apply log_read_file.
Qed.

(** X5: a call of [log] touches the console, the file system, the clock
    count and the archival state only: [process.env], the registry and
    its Logger objects stay as they are. *)
Theorem log_leaves_registry_and_env `{Host} rev self level content fmt w :
  let w' := exec (log rev self level content fmt) w in
  env w' = env w ∧ heap w' = heap w ∧ loggers w' = loggers w ∧
  clock w' = clock w ∧ manifest w' = manifest w.
Proof.
  intros w'. destruct (log_quiet_fields rev self level content fmt w) as (? & ? & ?).
  destruct (log_registry rev self level content fmt w) as (? & ?). by repeat split.
Qed.

(** X6: [log] never deletes or shortens a file: whatever a path held
    before the call is a prefix of what it holds after. *)
Theorem log_is_append_only `{Host} rev self level content fmt w p old :
  read_file (fs w) p = Some old →
  ∃ more, read_file (fs (exec (log rev self level content fmt) w)) p
          = Some (old +:+ more).
Proof.
  intros Hold. rewrite log_read_file, Hold. case_decide.
  - by eexists.
  - exists "". by rewrite append_nil_r.
Qed.

Lemma log_is_append_only_witness :
  let w := sample stale_fs in
  let p := path_join logs "2022-03-05.log" in
  read_file (fs w) p = Some "old" ∧
  ∃ more, read_file (fs (exec (log Rev2022 bot INFO (JString "hello") []) w)) p
          = Some ("old" +:+ more).
Proof.
  intros w p. split; [reflexivity|].
  apply (@log_is_append_only nodeTTY Rev2022 bot INFO (JString "hello") [] w p "old").
  reflexivity.
Defined.

(** X7: when the listing returned by [readdirSync] names no [.log] entry
    besides the file of the current UTC date, or when one of the
    file-system calls of [log] throws, the call starts no compaction and
    leaves the archiving flag as it is. *)
Theorem no_old_logs_no_compaction `{Host} rev os self level content fmt m :
  let w := world m in
  let t := clock w (ticks w) in
  let today := toISODate t +:+ ".log" in
  let line := message_of rev self level (toISO t) (format (normalize content) fmt) +:+ LF in
  let k := length (trace m) in
  let mkdir := os k (fs_mkdirSync (dir self)) in
  let append := os (S k) (fs_appendFileSync (path_join (dir self) today) line) in
  let readdir := os (S (S k)) (fs_readdirSync (dir self)) in
  let w' := world (log_sys rev os self level content fmt m).2 in
  (∀ entries, readdir = inr entries →
     ∀ f, f ∈ entries → endsWith f ".log" = true → f = today) ∨
  (∃ e, mkdir = inl e ∨ append = inl e ∨ readdir = inl e) →
  streams w' = streams w ∧ isArchiving w' = isArchiving w.
Proof.
  intros w t today line k mkdir append readdir w' Hyp.
  pose proof (log_sys_unfold rev os self level content fmt m) as E.
  cbv zeta in E. unfold printed, line_of, filename_of, instant in E.
  fold w t today line k in E. fold mkdir append readdir in E.
  unfold w'. rewrite E.
  destruct mkdir as [e1|r1]; [done|]. destruct append as [e2|r2]; [done|].
  destruct readdir as [e3|entries]; [done|].
  destruct Hyp as [Hyp|(e & [?|[?|?]])]; try done.
  assert (archivable today (sort entries) = []) as ->.
  { apply elem_of_nil_inv. intros f.
    rewrite elem_of_archivable, elem_of_sort. intros (Hin & Hlog & Hne).
    by apply Hne, (Hyp entries). }
  simpl. rewrite andb_false_r. done.
Qed.

Lemma no_old_logs_no_compaction_witness :
  let m := start (sample ∅) in
  let w' := world (log_sys Rev2022 (obliging ["2022-03-07.log"; "notes.txt"]) bot INFO
                     (JString "hello") [] m).2 in
  streams w' = streams (world m) ∧ isArchiving w' = isArchiving (world m).
Proof.
  intros m w'.
  apply (@no_old_logs_no_compaction nodeTTY Rev2022 (obliging ["2022-03-07.log"; "notes.txt"])
           bot INFO (JString "hello") [] m).
  left. intros entries [= <-] f Hf Hlog.
  apply elem_of_cons in Hf as [->|Hf]; [reflexivity|].
  apply list_elem_of_singleton in Hf as ->. vm_compute in Hlog. discriminate.
Defined.

(** ** The archiver *)

Section ArchiverFacts.
Context `{Host}.
Variable rev : Revision.

Lemma not_log_not_input l k :
  Forall (fun n => endsWith n ".log" = true) (needArchive l) →
  endsWith k ".log" = false → k ∉ needArchive l.
Proof.
  intros Hlog Hk Hin. rewrite Forall_forall in Hlog. specialize (Hlog k Hin). congruence.
Qed.

Lemma fs_set_isArchiving b w : fs (set_isArchiving b w) = fs w.
Proof. reflexivity. Qed.

Lemma step_other_files w ev p :
  archiver_ok w → endsWith (entry p) ".log" = false → entry p ≠ "archive.7z" →
  read_file (fs (step rev w ev)) p = read_file (fs w) p.
Proof.
  intros Hok Hlog Harch.
  destruct (step_kinds rev w ev)
    as [(Hfs&_)|[(self&level&content&fmt& ->)|[(i& ->)|(i& ->)]]].
  - by rewrite Hfs.
  - rewrite log_read_file. case_decide as Hp; [|done].
    subst p. simpl in Hlog. unfold filename_of in Hlog.
    by rewrite endsWith_append in Hlog.
  - destruct (streams w !! i) as [s|] eqn:Hi.
    2:{ rewrite sz_end_idle; [done | intros s0 ?; congruence]. }
    destruct (isRunning s) eqn:R.
    2:{ rewrite sz_end_idle; [done | intros s0 ?; congruence]. }
    destruct (sz_end_unfold rev i s w Hok Hi R) as (l & es' & _ & _ & Hlogs & Hes' & ->).
    rewrite fs_set_isArchiving, written_read_file. case_decide as Hp.
    { subst p. simpl in Hlog. unfold filename_of in Hlog.
      by rewrite endsWith_append in Hlog. }
    simpl. rewrite read_file_insert. case_decide as Hd; [|done].
    rewrite Hes', decide_False by (by apply not_log_not_input).
    rewrite decide_False by done. unfold read_file. rewrite Hd.
    by destruct (fs w !! dir (this l)).
  - destruct (streams w !! i) as [s|] eqn:Hi.
    2:{ rewrite sz_error_idle; [done | intros s0 ?; congruence]. }
    destruct (isRunning s) eqn:R.
    2:{ rewrite sz_error_idle; [done | intros s0 ?; congruence]. }
    by rewrite (sz_error_unfold i s w Hi R).
Qed.

Lemma run_other_files evs w p :
  archiver_ok w → endsWith (entry p) ".log" = false → entry p ≠ "archive.7z" →
  read_file (fs (run rev evs w)) p = read_file (fs w) p.
Proof.
  revert w. induction evs as [|ev evs IH]; intros w Hok Hlog Harch; [done|].
  simpl. rewrite IH by (by try apply archiver_ok_step). by apply step_other_files.
Qed.

End ArchiverFacts.

(** X9: every compaction ever started in a run writes to [archive.7z]
    with the fixed 7-zip options, and its inputs are distinct files
    ending in [.log] that lie in the directory of the archive; the
    archive itself is never among them. *)
Theorem compactions_are_well_formed `{Host} rev e f c m evs s :
  let w := run rev evs (boot e f c m) in
  s ∈ streams w →
  entry (archive s) = "archive.7z" ∧
  options s = sz_options ∧
  NoDup (inputs s) ∧
  ∀ p, p ∈ inputs s →
       folder p = folder (archive s) ∧ endsWith (entry p) ".log" = true ∧
       p ≠ archive s.
Proof.
  intros w Hs.
  destruct (archiver_ok_run rev evs _ (archiver_ok_boot e f c m)) as (_ & Hwf & _).
  rewrite Forall_forall in Hwf.
  destruct (Hwf s Hs) as (l & _ & Harch & Hin & Hopt & Hlog & Hnd).
  rewrite Harch, Hin. split; [done|]. split; [done|]. split.
  - apply NoDup_fmap_2; [|done]. by intros n1 n2 [=].
  - intros p (n & -> & Hn)%list_elem_of_fmap. rewrite Forall_forall in Hlog.
    specialize (Hlog n Hn). simpl. split; [done|]. split; [done|].
    intros [= ->]. by vm_compute in Hlog.
Qed.

Lemma compactions_are_well_formed_witness :
  let w := run Rev2022 failing_run (sample stale_fs) in
  ∃ s, s ∈ streams w ∧ inputs s
       = [path_join logs "2022-03-05.log"; path_join logs "2022-03-06.log"] ∧
       NoDup (inputs s).
Proof.
  intros w. destruct (streams w) as [|s ss] eqn:Hs; [vm_compute in Hs; discriminate|].
  assert (Hin : s ∈ streams w) by (rewrite Hs; constructor).
  exists s. split; [by rewrite <- Hs|]. split.
  - vm_compute in Hs. by injection Hs as <- _.
  - apply (@compactions_are_well_formed nodeTTY Rev2022 ∅ stale_fs (fun _ => today)
             (PackageJson (Some "remoji")) failing_run s Hin).
Defined.

(** X10: the ["end"] listener, whatever the operating system answers.
    When every removal returns, with the flag set as [log] left it: every
    input has been removed, in order, exactly one notice
    [[Logger] Archived N log file(s): ...] is printed at level INFO, and
    no compaction is started; the flag is cleared if the three
    file-system calls of the notice return, and stays set, the listener
    throwing, if one of them throws.  When a removal throws (a missing
    file, a subdirectory), the listener throws that error: the inputs
    before it have been removed, nothing is printed or appended, and the
    flag stays as it was. *)
Theorem compaction_end_cleans_up `{Host} rev os l m :
  let w := world m in
  let d := dir (this l) in
  let names := needArchive l in
  let k := length (trace m) in
  let n := length names in
  let t := clock w (ticks w) in
  let notice := message_of rev (this l) INFO (toISO t)
                  (format (archive_notice names) []) +:+ LF in
  let target := path_join d (toISODate t +:+ ".log") in
  let mkdir := os (k + n)%nat (fs_mkdirSync d) in
  let append := os (S (k + n)) (fs_appendFileSync target notice) in
  let readdir := os (S (S (k + n))) (fs_readdirSync d) in
  let r := on_archive_end_sys rev os l m in
  ((∀ j f, names !! j = Some f → returns (os (k + j)%nat (fs_rmSync (path_join d f)))) →
   isArchiving w = true →
   ∃ new,
     trace r.2 = trace m ++ new ∧
     removed new = map (path_join d) names ∧
     stdout (world r.2) = stdout w ++ [paint (DEFAULT_COLORS rev INFO) notice] ∧
     streams (world r.2) = streams w ∧
     (returns mkdir → returns append → returns readdir →
        r.1 = Return tt ∧ appended new = [(target, notice)] ∧
        isArchiving (world r.2) = false) ∧
     ((∃ e, mkdir = inl e ∨ append = inl e ∨ readdir = inl e) →
        (∃ e, r.1 = Throw e) ∧ isArchiving (world r.2) = true)) ∧
  (∀ j f e,
     names !! j = Some f →
     (∀ i g, (i < j)%nat → names !! i = Some g →
             returns (os (k + i)%nat (fs_rmSync (path_join d g)))) →
     os (k + j)%nat (fs_rmSync (path_join d f)) = inl e →
     r.1 = Throw e ∧ world r.2 = w ∧
     ∃ new, trace r.2 = trace m ++ new ∧
            removed new = map (path_join d) (take j names) ∧ appended new = []).
Proof.
  intros w d names k n t notice target mkdir append readdir r. split.
  - intros Hret Hflag.
    destruct (rm_loop_sys os d names m Hret) as (new1 & Hloop & Hlen & Hrm & Happ).
    set (m1 := {| world := world m; trace := trace m ++ new1 |}) in Hloop.
    assert (Hr : r = sys_bind (log_sys rev os (this l) INFO
                                 (JString (archive_notice names)) [])
                       (fun _ => inside (write_isArchiving false)) m1).
    { unfold r, on_archive_end_sys. unfold sys_bind at 1. fold d names. by rewrite Hloop. }
    pose proof (log_sys_unfold rev os (this l) INFO
                  (JString (archive_notice names)) [] m1) as E.
    cbv zeta in E. unfold printed, line_of, filename_of, instant in E.
    unfold m1 in E. cbn [world trace normalize] in E. rewrite length_app, Hlen in E.
    fold w d k n t notice target in E. fold mkdir append readdir in E.
    unfold sys_bind, m1 in Hr. fold w in Hr. rewrite E in Hr. clear E. rewrite Hr. clear Hr Hloop.
    destruct mkdir as [e1|r1].
    { eexists. split; [simpl; by rewrite <- app_assoc|].
      rewrite removed_app, Hrm. simpl. rewrite app_nil_r.
      split; [done|]. split; [done|]. split; [done|]. split.
      - by intros [? ?].
      - intros _. split; [by eexists | done]. }
    destruct append as [e2|r2].
    { eexists. split; [simpl; by rewrite <- app_assoc|].
      rewrite removed_app, Hrm. simpl. rewrite app_nil_r.
      split; [done|]. split; [done|]. split; [done|]. split.
      - by intros _ [? ?].
      - intros _. split; [by eexists | done]. }
    destruct readdir as [e3|entries].
    { eexists. split; [simpl; by rewrite <- app_assoc|].
      rewrite removed_app, Hrm. simpl. rewrite app_nil_r.
      split; [done|]. split; [done|]. split; [done|]. split.
      - by intros _ _ [? ?].
      - intros _. split; [by eexists | done]. }
    fold w. rewrite Hflag. simpl.
    eexists. split; [by rewrite <- app_assoc|].
    rewrite removed_app, appended_app, Hrm, Happ. simpl. rewrite app_nil_r.
    split; [done|]. split; [done|]. split; [done|]. split.
    + intros _ _ _. done.
    + by intros (e & [?|[?|?]]).
  - intros j f e Hj Hret He.
    destruct (rm_loop_sys_throws os d names m j f e Hj Hret He) as (new & Hloop & Hrm & Happ).
    assert (Hr : r = (Throw e, {| world := world m; trace := trace m ++ new |})).
    { unfold r, on_archive_end_sys. unfold sys_bind at 1. fold d names. by rewrite Hloop. }
    rewrite Hr. simpl. repeat split. by exists new.
Qed.

Lemma compaction_end_cleans_up_witness :
  let l := {| this := bot; needArchive := ["2022-03-05.log"; "b.log"] |} in
  let m := start (set_isArchiving true (sample ∅)) in
  let r := on_archive_end_sys Rev2022 with_subdirectory l m in
  needArchive l !! 1%nat = Some "b.log" ∧
  with_subdirectory 1%nat (fs_rmSync (path_join (dir bot) "b.log"))
  = inl (SystemError "ERR_FS_EISDIR") ∧
  r.1 = Throw (SystemError "ERR_FS_EISDIR") ∧
  stdout (world r.2) = [] ∧ isArchiving (world r.2) = true.
Proof.
  intros l m r. split; [reflexivity|]. split; [reflexivity|].
  destruct (proj2 (@compaction_end_cleans_up nodeTTY Rev2022 with_subdirectory l m)
              1%nat "b.log" (SystemError "ERR_FS_EISDIR") eq_refl)
    as (Hthrow & Hworld & _).
  - intros i g Hi Hg. destruct i as [|i]; [|lia].
    injection Hg as <-. by exists [].
  - reflexivity.
  - split; [exact Hthrow|].
    split; [exact (f_equal stdout Hworld) | exact (f_equal isArchiving Hworld)].
Defined.

(** X11: if one of its inputs is no longer on disk when the compaction
    ends, the listener throws in the deletion loop: it logs nothing and
    does not clear the flag. *)
Theorem missing_input_keeps_flag `{Host} rev l n w :
  n ∈ needArchive l →
  read_file (fs w) (path_join (dir (this l)) n) = None →
  let w' := exec (on_archive_end rev l) w in
  (∃ e, (on_archive_end rev l w).1 = Throw e) ∧
  isArchiving w' = isArchiving w ∧ stdout w' = stdout w ∧ streams w' = streams w.
Proof.
  intros Hn Hmiss w'.
  destruct (rm_loop_missing (dir (this l)) (needArchive l) w n Hn Hmiss) as [e He].
  destruct (rm_loop_only_fs (dir (this l)) (needArchive l) w) as [f' Hloop].
  unfold exec in Hloop. unfold w', exec, on_archive_end, bind.
  destruct (for_of _ _ w) as [[[]|e'] w1]; simpl in He, Hloop; [done|].
  subst w1. simpl. split; [by eexists | done].
Qed.

Lemma missing_input_keeps_flag_witness :
  let l := {| this := bot; needArchive := ["2022-03-05.log"; "2022-03-04.log"] |} in
  let w := set_isArchiving true (sample stale_fs) in
  let w' := exec (on_archive_end Rev2022 l) w in
  ("2022-03-04.log" ∈ needArchive l ∧
   read_file (fs w) (path_join (dir (this l)) "2022-03-04.log") = None) ∧
  isArchiving w' = true ∧ stdout w' = [].
Proof.
  intros l w w'.
  assert (Hn : "2022-03-04.log" ∈ needArchive l) by (right; left).
  assert (Hmiss : read_file (fs w) (path_join (dir (this l)) "2022-03-04.log") = None)
    by reflexivity.
  split; [done|].
  destruct (@missing_input_keeps_flag nodeTTY Rev2022 l "2022-03-04.log" w Hn Hmiss)
    as (_ & Hflag & Hout & _).
  split; [exact Hflag | exact Hout].
Defined.

(** X12: in every run, a file that is neither a [.log] file nor
    [archive.7z] is never created, changed or removed by the logger. *)
Theorem other_files_untouched `{Host} rev e f c m evs p :
  endsWith (entry p) ".log" = false → entry p ≠ "archive.7z" →
  read_file (fs (run rev evs (boot e f c m))) p = read_file f p.
Proof.
  intros Hlog Harch.
  by rewrite run_other_files by (by try apply archiver_ok_boot).
Qed.

Lemma other_files_untouched_witness :
  let evs := [CallGetDefault; CallInfo 0%nat (JString "hello") []; SzEnd 0%nat] in
  let p := path_join logs "notes.txt" in
  let w := boot ∅ stale_fs (fun _ => today) (PackageJson (Some "remoji")) in
  (endsWith (entry p) ".log" = false ∧ entry p ≠ "archive.7z") ∧
  read_file (fs (run Rev2022 evs w)) p = read_file stale_fs p.
Proof.
  intros evs p w.
  assert (Hlog : endsWith (entry p) ".log" = false) by reflexivity.
  assert (Harch : entry p ≠ "archive.7z") by discriminate.
  split; [exact (conj Hlog Harch)|].
  exact (@other_files_untouched nodeTTY Rev2022 ∅ stale_fs (fun _ => today)
           (PackageJson (Some "remoji")) evs p Hlog Harch).
Defined.

(** X13: in every run, once the child of the running compaction fails,
    the flag stays set and no compaction is started or in progress for
    the rest of the process, whatever is called. *)
Theorem failed_compression_ends_archival `{Host} rev e f c m evs i s later :
  let w := run rev evs (boot e f c m) in
  let w1 := step rev w (SzError i) in
  let w2 := run rev later w1 in
  streams w !! i = Some s → status s = Running →
  isArchiving w2 = true ∧ inProgress w2 = [] ∧ streams w2 = streams w1 ∧
  status <$> streams w1 !! i = Some Failed.
Proof.
  intros w w1 w2 Hi Hst.
  assert (Hok : archiver_ok w) by apply archiver_ok_run, archiver_ok_boot.
  destruct Hok as (Hg & _).
  assert (R : isRunning s = true) by (unfold isRunning; by apply bool_decide_eq_true).
  assert (Hw1 : w1 = set_streams (alter (set_status Failed) i) w)
    by apply (sz_error_unfold i s w Hi R).
  assert (Hflag : isArchiving w1 = true).
  { rewrite Hw1. simpl. by eapply running_flag. }
  assert (Hnone : inProgress w1 = []).
  { rewrite Hw1. unfold inProgress. simpl. by eapply running_after_stop. }
  destruct (wedged_run rev later w1 Hflag Hnone) as [Hflag2 Hs2].
  fold w2 in Hflag2, Hs2. split; [done|]. split.
  - unfold inProgress in *. by rewrite Hs2.
  - split; [done|]. rewrite Hw1. simpl. by rewrite list_lookup_alter_eq, Hi.
Qed.

Lemma failed_compression_ends_archival_witness :
  let evs := [CallGetDefault; CallInfo 0%nat (JString "hello") []] in
  let w := run Rev2022 evs (sample stale_fs) in
  let w2 := run Rev2022 [CallInfo 0%nat (JString "again") []]
              (step Rev2022 w (SzError 0%nat)) in
  ∃ s, (streams w !! 0%nat = Some s ∧ status s = Running) ∧
       isArchiving w2 = true ∧ inProgress w2 = [].
Proof.
  intros evs w w2.
  assert (Hex : ∃ s, streams w !! 0%nat = Some s ∧ status s = Running).
  { vm_compute. eexists. split; reflexivity. }
  destruct Hex as (s & Hs & Hst). exists s. split; [exact (conj Hs Hst)|].
  destruct (@failed_compression_ends_archival nodeTTY Rev2022 ∅ stale_fs (fun _ => today)
              (PackageJson (Some "remoji")) evs 0%nat s
              [CallInfo 0%nat (JString "again") []] Hs Hst)
    as (Hflag & Hnone & _).
  exact (conj Hflag Hnone).
Defined.

(** ** The console *)

Section ConsoleFacts.
Context `{Host}.
Variable rev : Revision.
Variable c : nat → DateTime.







End ConsoleFacts.


(** ** The environment accessor *)

(** X14: [getenv] keeps the promises of its four overload signatures: it
    changes nothing; under [assert] it never returns null; without
    [assert] it never throws; with [number] it never returns a string
    and without it never a number. *)
Theorem getenv_overloads `{Host} name number assert w :
  (getenv name number assert w).2 = w ∧
  (assert = true → (getenv name number assert w).1 ≠ Return Null) ∧
  (assert = false → ∀ e, (getenv name number assert w).1 ≠ Throw e) ∧
  (number = true → ∀ s, (getenv name number assert w).1 ≠ Return (Str s)) ∧
  (number = false → ∀ n, (getenv name number assert w).1 ≠ Return (Num n)).
Proof.
  unfold getenv. destruct (env w !! name) as [value|].
  - destruct number.
    + destruct (isNaN (parseFloat value)); destruct assert; simpl;
        repeat split; intros; congruence.
    + simpl. repeat split; intros; congruence.
  - destruct assert; simpl; repeat split; intros; congruence.
Qed.




(** A name with an [=] is never set. *)
Example setenv_bad_name :
  let w := step Rev2022 (boot ∅ ∅ (fun _ => today) RequireThrows) (SetEnv "A=B" "x") in
  (getenv "A=B" false false w).1 = Return Null ∧ env w = ∅.
Proof. vm_compute. split; reflexivity. Qed.

(** ** Fresh names in the tests *)

Lemma append_split_at a (s1 s2 r1 r2 : string) :
  lacks a s1 = true → lacks a s2 = true →
  s1 +:+ String a r1 = s2 +:+ String a r2 → s1 = s2 ∧ r1 = r2.
Proof.
  revert s2. induction s1 as [|x s1 IH]; intros [|y s2] H1 H2 E; simpl in *.
  - by injection E.
  - rewrite append_cons in E. injection E as <- _.
    by rewrite bool_decide_eq_true_2 in H2.
  - rewrite append_cons in E. injection E as -> _.
    by rewrite bool_decide_eq_true_2 in H1.
  - rewrite !append_cons in E. injection E as -> E.
    apply andb_true_iff in H1 as [_ H1]. apply andb_true_iff in H2 as [_ H2].
    by destruct (IH s2 H1 H2 E) as [-> ->].
Qed.

Lemma dec_inj n1 n2 : dec n1 = dec n2 → n1 = n2.
Proof.
  intros E. apply (f_equal digits_value) in E. rewrite !digits_dec in E. congruence.
Qed.

Lemma genKey_inj rk1 rk2 i j :
  lacks "_" rk1 = true → lacks "_" rk2 = true →
  (genKey rk1 i).1 = (genKey rk2 j).1 → rk1 = rk2 ∧ i = j.
Proof.
  intros H1 H2 E. unfold genKey in E. simpl in E.
  change ("TEST_" +:+ ?x) with (String "T" (String "E" (String "S" (String "T" (String "_" x))))) in E.
  injection E as E. change ("_" +:+ ?x) with (String "_" x) in E.
  apply append_split_at in E as [-> E]; [|done..]. split; [done|]. by apply dec_inj.
Qed.

Lemma genKeys_counter rks i key :
  key ∈ genKeys rks i → ∃ rk j, rk ∈ rks ∧ (i ≤ j)%N ∧ key = (genKey rk j).1.
Proof.
  revert i. induction rks as [|rk rks IH]; intros i Hkey; simpl in Hkey.
  - by apply not_elem_of_nil in Hkey.
  - apply elem_of_cons in Hkey as [->|Hkey].
    + exists rk, i. split; [constructor|]. split; [lia | done].
    + destruct (IH _ Hkey) as (rk' & j & Hrk & Hj & ->).
      exists rk', j. split; [by constructor|]. split; [lia | done].
Qed.

(** X17: [genKey] never gives the same name twice: whatever the random
    parts, which contain no underscore, the names of successive calls
    are pairwise different, and each is [TEST_], the random part, an
    underscore and the counter of its call. *)
Theorem genKey_never_repeats randomKeys i :
  Forall (fun rk => lacks "_" rk = true) randomKeys →
  NoDup (genKeys randomKeys i) ∧
  length (genKeys randomKeys i) = length randomKeys.
Proof.
  intros Hall. split.
  - revert i. induction Hall as [|rk rks Hrk Hall IH]; intros i; simpl; constructor.
    + intros (rk' & j & Hin & Hj & E)%genKeys_counter.
      rewrite Forall_forall in Hall.
      apply genKey_inj in E as [_ ->]; [lia | done | by apply Hall].
    + apply IH.
  - revert i. induction randomKeys as [|rk rks IH]; intros i; simpl; [done|].
    inversion Hall; subst. by rewrite IH.
Qed.

Lemma genKey_never_repeats_witness :
  let rks := ["3VQ1A"; "3VQ1A"; "0"] in
  Forall (fun rk => lacks "_" rk = true) rks ∧
  genKeys rks 0 = ["TEST_3VQ1A_0"; "TEST_3VQ1A_1"; "TEST_0_2"] ∧
  NoDup (genKeys rks 0).
Proof.
  intros rks.
  assert (Hall : Forall (fun rk => lacks "_" rk = true) rks) by (by repeat constructor).
  split; [exact Hall|]. split; [reflexivity|].
  apply (genKey_never_repeats rks 0 Hall).
Defined.
